(** * Mipha utilities: argument converters and the button paginator

    A shallow embedding of [utilities/converters.py] and
    [utilities/paginator.py], followed by the properties of the
    temporal-phrase splitter, the paste-id extractor and the pagination
    view that the specification states.

    Conventions of the embedding.
    - A Python [str] is a list of Unicode code points ([N]); [len] counts
      code points, as Python does.
    - A Python [int] is a [Z].  Slices follow Python: negative bounds count
      from the end and every bound is clipped to the string.
    - Exceptions are values of [exn]; a call that may raise returns a
      [result].
    - The wall clock, the Duckling service, the Unicode character database
      and [datetime.fromisoformat] are outside the repository: they are
      fields of the records [World] and [UnicodeDB]. *)

From Stdlib Require Import String Ascii ZArith NArith List Bool Lia.
From Stdlib Require Import DecimalString.
Import ListNotations.

Set Implicit Arguments.

(* ===================================================================== *)
(** ** Python built-ins used by the two files                            *)
(* ===================================================================== *)

Module Py.

Definition char := N.
Definition pystr := list char.

(** An ASCII literal of the source, as code points. *)
Definition lit (s : string) : pystr :=
  map N_of_ascii (list_ascii_of_string s).

(** The single character U+2026, written "…" in the source. *)
Definition ellipsis : pystr := [8230%N].

Definition len (s : pystr) : Z := Z.of_nat (length s).

Fixpoint str_eqb (a b : pystr) : bool :=
  match a, b with
  | [], [] => true
  | x :: a', y :: b' => N.eqb x y && str_eqb a' b'
  | _, _ => false
  end.

(** [s.startswith(p)] *)
Fixpoint startswith (s p : pystr) : bool :=
  match p, s with
  | [], _ => true
  | _ :: _, [] => false
  | y :: p', x :: s' => N.eqb x y && startswith s' p'
  end.

(** [s.endswith(p)] *)
Definition endswith (s p : pystr) : bool :=
  startswith (rev s) (rev p).

(** A slice bound [i] against a string of length [n]: negative bounds
    count from the end, and the result is clipped to [0 .. n]. *)
Definition clip (n i : Z) : Z :=
  if (i <? 0)%Z then Z.max (i + n) 0 else Z.min i n.

(** [s[lo:hi]] with both bounds given. *)
Definition slice (s : pystr) (lo hi : Z) : pystr :=
  let a := clip (len s) lo in
  let b := clip (len s) hi in
  firstn (Z.to_nat (b - a)) (skipn (Z.to_nat a) s).

(** [s[lo:]] *)
Definition slice_from (s : pystr) (lo : Z) : pystr :=
  skipn (Z.to_nat (clip (len s) lo)) s.

(** [s[:hi]] *)
Definition slice_to (s : pystr) (hi : Z) : pystr :=
  firstn (Z.to_nat (clip (len s) hi)) s.

Definition mem_char (c : char) (chars : pystr) : bool :=
  existsb (N.eqb c) chars.

Fixpoint dropwhile (p : char -> bool) (s : pystr) : pystr :=
  match s with
  | [] => []
  | c :: s' => if p c then dropwhile p s' else s
  end.

(** [s.lstrip(chars)] *)
Definition lstrip_chars (s chars : pystr) : pystr :=
  dropwhile (fun c => mem_char c chars) s.

(** [str.isspace] on one character: the characters CPython treats as
    white space. *)
Definition isspace (c : char) : bool :=
  ((9 <=? c) && (c <=? 13) || (28 <=? c) && (c <=? 32)
   || (c =? 133) || (c =? 160) || (c =? 5760)
   || (8192 <=? c) && (c <=? 8202)
   || (c =? 8232) || (c =? 8233) || (c =? 8239) || (c =? 8287)
   || (c =? 12288))%N.

Definition lstrip (s : pystr) : pystr := dropwhile isspace s.
Definition rstrip (s : pystr) : pystr := rev (dropwhile isspace (rev s)).

(** [s.strip()] *)
Definition strip (s : pystr) : pystr := rstrip (lstrip s).

(** [str(n)] for an [int]. *)
Definition str_of_int (n : Z) : pystr :=
  lit (NilEmpty.string_of_int (Z.to_int n)).

(** [s.replace(old, new)] for a non-empty [old]: leftmost,
    non-overlapping occurrences.  The recursion is on the text; after a
    match the scan resumes [len(old)] characters further on, which the
    counter [skip] records. *)
Fixpoint replace_go (old new : pystr) (skip : nat) (s : pystr) : pystr :=
  match s with
  | [] => []
  | c :: s' =>
      match skip with
      | S k => replace_go old new k s'
      | O =>
          if startswith s old
          then new ++ replace_go old new (Nat.pred (length old)) s'
          else c :: replace_go old new 0 s'
      end
  end.

Definition replace (s old new : pystr) : pystr := replace_go old new 0 s.

(** The Unicode tables behind [str.isdigit], [int(str)] and the regular
    expression class [\w].  They belong to the interpreter, not to the
    repository, so they are a parameter; only their agreement with ASCII
    on the ten digits is fixed. *)
Record UnicodeDB := {
  isdigit_char : char -> bool;          (* Numeric_Type is Digit or Decimal *)
  todecimal : char -> option Z;         (* decimal value of an Nd character *)
  isword_char : char -> bool;           (* alphanumeric or underscore *)
  ascii_isdigit : forall c, (48 <= c <= 57)%N -> isdigit_char c = true;
  ascii_todecimal :
    forall c, (48 <= c <= 57)%N -> todecimal c = Some (Z.of_N c - 48)%Z
}.

(** [s.isdigit()]: every character is a digit and there is at least
    one. *)
Definition isdigit (db : UnicodeDB) (s : pystr) : bool :=
  match s with
  | [] => false
  | _ => forallb (isdigit_char db) s
  end.

(** The value of a run of decimal characters, most significant first;
    [None] when a character has no decimal value. *)
Fixpoint decimal_value (db : UnicodeDB) (acc : Z) (s : pystr) : option Z :=
  match s with
  | [] => Some acc
  | c :: s' =>
      match todecimal db c with
      | Some d => decimal_value db (10 * acc + d)%Z s'
      | None => None
      end
  end.

End Py.

Import Py.

(* ===================================================================== *)
(** ** Exceptions and results                                            *)
(* ===================================================================== *)

(** The exceptions the two files raise or let through. *)
Inductive exn :=
| BadArgument (msg : pystr)            (* commands.BadArgument *)
| BadDatetimeTransform (msg : pystr)   (* app_commands error of the file *)
| RuntimeError (msg : pystr)
| ConversionError (msg : pystr)        (* wraps ValueError(msg) *)
| ValueError
| OverflowError
| IndexError
| TypeError
| OtherError.                          (* any other exception of a callee *)

Inductive result (A : Type) :=
| Ok (a : A)
| Raise (e : exn).
Arguments Ok {A} a.
Arguments Raise {A} e.

Definition result_map {A B} (f : A -> B) (g : exn -> exn) (r : result A)
  : result B :=
  match r with
  | Ok a => Ok (f a)
  | Raise e => Raise (g e)
  end.

(* ===================================================================== *)
(** ** utilities/converters.py                                           *)
(* ===================================================================== *)

Module Converters.

(** An aware [datetime], as microseconds since the epoch. *)
Definition datetime := Z.

Definition datetime_min : datetime := (-62135596800 * 1000000)%Z.
Definition datetime_max : datetime := (253402300799 * 1000000 + 999999)%Z.

(** [datetime.timedelta(seconds=v)], in microseconds; Python refuses a
    delta of more than 999999999 days. *)
Definition timedelta_seconds (v : Z) : result Z :=
  if (Z.abs (v / 86400) <=? 999999999)%Z
  then Ok (v * 1000000)%Z
  else Raise OverflowError.

(** [t + delta]; Python refuses a result outside years 1 to 9999. *)
Definition datetime_add (t : datetime) (delta : Z) : result datetime :=
  let r := (t + delta)%Z in
  if ((datetime_min <=? r) && (r <=? datetime_max))%Z
  then Ok r
  else Raise OverflowError.

Inductive Dim := duration | time.

(** [DucklingResponse], with the fields the code reads:
    [time["value"]["value"]] is [NotRequired], the normalised value is
    always there. *)
Record DucklingResponse := {
  dim : Dim;
  start : Z;
  end_ : Z;
  value_value : option pystr;
  normalized_value : Z
}.

(** What lies outside the process: the clock behind
    [datetime.datetime.now], read once per call (the [k]-th call returns
    [clock k]); the Duckling service, from the [tz] and [text] form
    fields to the decoded JSON body; and [datetime.fromisoformat], where
    [None] stands for the [ValueError] it raises. *)
Record World := {
  clock : nat -> datetime;
  duckling : pystr -> pystr -> list DucklingResponse;
  fromisoformat : pystr -> option datetime
}.

(** Computations that read the clock and may raise: the state is the
    number of clock readings so far. *)
Definition M (A : Type) : Type := nat -> result A * nat.

Definition ret {A} (a : A) : M A := fun k => (Ok a, k).
Definition raise {A} (e : exn) : M A := fun k => (Raise e, k).
Definition bind {A B} (m : M A) (f : A -> M B) : M B :=
  fun k =>
    match m k with
    | (Ok a, k') => f a k'
    | (Raise e, k') => (Raise e, k')
    end.
Definition lift {A} (r : result A) : M A := fun k => (r, k).

Notation "x <- m ;; f" := (bind m (fun x => f))
  (at level 61, m at next level, right associativity).

(** [datetime.datetime.now(datetime.timezone.utc)] *)
Definition datetime_now (w : World) : M datetime :=
  fun k => (Ok (clock w k), S k).

(** One entry of [times]: the resolved instant and the span. *)
Definition Parsed : Type := datetime * Z * Z.

(** The body of [for time in data] in [parse]. *)
Fixpoint parse_loop (w : World) (data : list DucklingResponse)
    (times : list Parsed) : M (list Parsed) :=
  match data with
  | [] => ret times
  | t :: data' =>
      match dim t, value_value t with
      | time, Some v =>
          match fromisoformat w v with
          | Some d => parse_loop w data' (times ++ [(d, start t, end_ t)])
          | None => raise ValueError
          end
      | time, None => parse_loop w data' times
      | duration, _ =>
          current <- datetime_now w ;;
          delta <- lift (timedelta_seconds (normalized_value t)) ;;
          d <- lift (datetime_add current delta) ;;
          parse_loop w data' (times ++ [(d, start t, end_ t)])
      end
  end.

(** [DatetimeConverter.parse]: [now] is defaulted on entry and not read
    again. *)
Definition DatetimeConverter_parse (w : World) (argument : pystr)
    (timezone : pystr) (now : option datetime) : M (list Parsed) :=
  now <- match now with
         | Some t => ret t
         | None => datetime_now w
         end ;;
  parse_loop w (duckling w timezone argument) [].

(** [DatetimeTransformer.parse] and [WhenAndWhatTransformer.parse] repeat
    the body of [DatetimeConverter.parse] line for line. *)
Definition DatetimeTransformer_parse := DatetimeConverter_parse.
Definition WhenAndWhatTransformer_parse := DatetimeConverter_parse.

(** The part of a prefix-command [Context] the converters read. *)
Record Context := {
  ctx_tz_row : option pystr;        (* SELECT tz FROM tz_store ... *)
  ctx_created_at : datetime;        (* ctx.message.created_at *)
  ctx_duckling_key : bool           (* bot.config.get("duckling") is set *)
}.

(** The part of a slash-command [Interaction] the transformers read. *)
Record Interaction := {
  int_guild : bool;                 (* interaction.guild is not None *)
  int_tz_row : option pystr;
  int_created_at : datetime;
  int_duckling_key : bool
}.

(** [if row: ZoneInfo(row) else: ZoneInfo("UTC")], as the zone's key. *)
Definition zone_of_row (row : option pystr) : pystr :=
  match row with
  | Some (c :: r) => c :: r
  | _ => lit "UTC"
  end.

Definition DatetimeConverter_get_timezone (ctx : Context) : pystr :=
  zone_of_row (ctx_tz_row ctx).

Definition DatetimeTransformer_get_timezone (i : Interaction) : pystr :=
  zone_of_row (int_tz_row i).

Definition WhenAndWhatTransformer_get_timezone (i : Interaction) : pystr :=
  if int_guild i then zone_of_row (int_tz_row i) else lit "UTC".

Definition no_duckling : pystr :=
  lit "No Duckling instance available to perform this action.".
Definition could_not_parse : pystr := lit "Could not parse time.".
Definition could_not_distinguish : pystr :=
  lit "Could not distinguish time from argument.".

(** [DatetimeConverter.convert] *)
Definition DatetimeConverter_convert (w : World) (ctx : Context)
    (argument : pystr) : M datetime :=
  let timezone := DatetimeConverter_get_timezone ctx in
  let now := ctx_created_at ctx in
  if negb (ctx_duckling_key ctx) then raise (RuntimeError no_duckling) else
  parsed_times <- DatetimeConverter_parse w argument timezone (Some now) ;;
  match parsed_times with
  | [] => raise (BadArgument could_not_parse)
  | (when, _, _) :: _ => ret when
  end.

(** [DatetimeTransformer.transform] *)
Definition DatetimeTransformer_transform (w : World) (i : Interaction)
    (argument : pystr) : M datetime :=
  let timezone := DatetimeTransformer_get_timezone i in
  let now := int_created_at i in
  if negb (int_duckling_key i) then raise (RuntimeError no_duckling) else
  parsed_times <- DatetimeTransformer_parse w argument timezone (Some now) ;;
  match parsed_times with
  | [] => raise (BadDatetimeTransform could_not_parse)
  | (when, _, _) :: _ => ret when
  end.

(** [for prefix in prefixes: if s.startswith(prefix): s = s[len(prefix):];
    break] *)
Fixpoint strip_first_prefix (prefixes : list pystr) (s : pystr) : pystr :=
  match prefixes with
  | [] => s
  | prefix :: rest =>
      if startswith s prefix then slice_from s (len prefix)
      else strip_first_prefix rest s
  end.

(** The same loop without [break]. *)
Fixpoint strip_each_prefix (prefixes : list pystr) (s : pystr) : pystr :=
  match prefixes with
  | [] => s
  | prefix :: rest =>
      strip_each_prefix rest
        (if startswith s prefix then slice_from s (len prefix) else s)
  end.

(** [for suffix in suffixes: if s.endswith(suffix):
    s = s[:-len(suffix)]] *)
Fixpoint strip_each_suffix (suffixes : list pystr) (s : pystr) : pystr :=
  match suffixes with
  | [] => s
  | suffix :: rest =>
      strip_each_suffix rest
        (if endswith s suffix then slice_to s (- len suffix) else s)
  end.

Definition filler_prefixes : list pystr :=
  [lit "me to "; lit "me in "; lit "me at "; lit "me that "].

(** The lines under [# Strip some common stuff], up to
    [argument = argument.strip()]. *)
Definition strip_common_stuff (argument : pystr) : pystr :=
  let argument := strip_first_prefix filler_prefixes argument in
  let argument := strip_each_suffix [lit "from now"] argument in
  strip argument.

(** [WhenAndWhatConverter.convert] *)
Definition WhenAndWhatConverter_convert (w : World) (ctx : Context)
    (argument : pystr) : M (datetime * pystr) :=
  let timezone := DatetimeConverter_get_timezone ctx in
  let now := ctx_created_at ctx in
  let argument := strip_common_stuff argument in
  if negb (ctx_duckling_key ctx) then raise (RuntimeError no_duckling) else
  parsed_times <- DatetimeConverter_parse w argument timezone (Some now) ;;
  match parsed_times with
  | [] => raise (BadArgument could_not_parse)
  | (when, begin, end_) :: _ =>
      if (negb (begin =? 0) && negb (end_ =? len argument))%Z
      then raise (BadArgument could_not_distinguish)
      else
        let what :=
          if (begin =? 0)%Z
          then lstrip_chars (slice_from argument (end_ + 1)) (lit " ,.!:;")
          else strip (slice_to argument begin) in
        let what := strip_each_prefix [lit "to "] what in
        ret (when, match what with [] => ellipsis | _ => what end)
  end.

(** [WhenAndWhatTransformer.transform] *)
Definition WhenAndWhatTransformer_transform (w : World) (i : Interaction)
    (value : pystr) : M datetime :=
  let timezone := WhenAndWhatTransformer_get_timezone i in
  let now := int_created_at i in
  let value := strip_common_stuff value in
  if negb (int_duckling_key i) then raise (RuntimeError no_duckling) else
  parsed_times <-
    WhenAndWhatTransformer_parse w value timezone (Some now) ;;
  match parsed_times with
  | [] => raise (BadDatetimeTransform could_not_parse)
  | (when, begin, end_) :: _ =>
      if (negb (begin =? 0) && negb (end_ =? len value))%Z
      then raise (BadDatetimeTransform could_not_distinguish)
      else
        let what :=
          if (begin =? 0)%Z
          then lstrip_chars (slice_from value (end_ + 1)) (lit " ,.!:;")
          else strip (slice_to value begin) in
        let what := strip_each_prefix [lit "to "] what in
        ret when
  end.

(** *** The regular expression of [MYSTBIN_REGEX]

    Python's [re] is a backtracking matcher.  A pattern is embedded as a
    function from the remaining text, the groups captured so far and a
    continuation, so that alternatives are tried in [re]'s order: an
    optional part or a repetition first takes as much as it can (all the
    quantifiers of the pattern are greedy) and gives it back when the
    rest of the pattern fails. *)

Definition Groups := list (string * pystr).
Definition Match : Type := pystr * Groups.    (* text left, groups *)
Definition Cont := pystr -> Groups -> option Match.
Definition Regex := pystr -> Groups -> Cont -> option Match.

(** One character satisfying [p]. *)
Definition re_class (p : char -> bool) : Regex :=
  fun s g k =>
    match s with
    | c :: s' => if p c then k s' g else None
    | [] => None
    end.

Definition re_char (c : char) : Regex := re_class (N.eqb c).

(** [[lo-hi]] *)
Definition re_range (lo hi : ascii) : Regex :=
  re_class (fun c => (N_of_ascii lo <=? c) && (c <=? N_of_ascii hi))%N.

Definition re_seq (r1 r2 : Regex) : Regex :=
  fun s g k => r1 s g (fun s' g' => r2 s' g' k).

Definition re_empty : Regex := fun s g k => k s g.

(** A literal run of characters. *)
Definition re_lit (l : string) : Regex :=
  fold_right (fun c r => re_seq (re_char c) r) re_empty (lit l).

(** [r?] *)
Definition re_opt (r : Regex) : Regex :=
  fun s g k =>
    match r s g k with
    | Some m => Some m
    | None => k s g
    end.

(** [r*]: an iteration that consumes nothing ends the repetition, so
    [length s] iterations are enough. *)
Fixpoint re_star_fuel (fuel : nat) (r : Regex) : Regex :=
  fun s g k =>
    match fuel with
    | O => k s g
    | S fuel' =>
        match r s g (fun s' g' =>
                       if (length s' <? length s)%nat
                       then re_star_fuel fuel' r s' g' k
                       else None) with
        | Some m => Some m
        | None => k s g
        end
    end.

Definition re_star (r : Regex) : Regex :=
  fun s g k => re_star_fuel (length s) r s g k.

(** [r+] *)
Definition re_plus (r : Regex) : Regex := re_seq r (re_star r).

(** [(?P<name>r)]: records the text [r] consumed. *)
Definition re_group (name : string) (r : Regex) : Regex :=
  fun s g k =>
    r s g (fun s' g' =>
             k s' ((name, firstn (length s - length s') s) :: g')).

(** [pattern.match] at the start of [s]. *)
Definition re_match (r : Regex) (s : pystr) : option Match :=
  r s [] (fun s' g => Some (s', g)).

(** [pattern.search]: the first position, from the left, where the
    pattern matches; the position after the last character is tried
    too. *)
Fixpoint re_search (r : Regex) (s : pystr) : option Match :=
  match re_match r s with
  | Some m => Some m
  | None =>
      match s with
      | [] => None
      | _ :: s' => re_search r s'
      end
  end.

(** [match[name]]: the last capture of the group, [None] when the group
    took no part in the match. *)
Fixpoint group_get (name : string) (g : Groups) : option pystr :=
  match g with
  | [] => None
  | (n, v) :: g' => if String.eqb n name then Some v else group_get name g'
  end.

(** [MYSTBIN_REGEX], read left to right:
    - an optional URL prefix: optionally [https?://], optionally
      [beta\.], then [mystb\.in\/];
    - the group [id]: any number of words, each one capital letter
      [[A-Z]{1}] followed by lower-case letters [[a-z]+];
    - optionally the group [ext]: [\.\w+]. *)
Definition MYSTBIN_REGEX (db : UnicodeDB) : Regex :=
  re_seq
    (re_opt
       (re_seq
          (re_opt (re_seq (re_lit "http")
                     (re_seq (re_opt (re_char 115%N)) (re_lit "://"))))
          (re_seq (re_opt (re_lit "beta.")) (re_lit "mystb.in/"))))
    (re_seq
       (re_group "id"
          (re_star (re_seq (re_range "A" "Z") (re_plus (re_range "a" "z")))))
       (re_opt
          (re_group "ext"
             (re_seq (re_char 46%N) (re_plus (re_class (isword_char db))))))).

Definition no_mystbin_ids : pystr := lit "No Mystbin IDs found in this text.".

(** [MystbinPasteConverter.convert]; the result is [matches["id"]], which
    Python types as an optional string. *)
Definition MystbinPasteConverter_convert (db : UnicodeDB)
    (argument : pystr) : result (option pystr) :=
  match re_search (MYSTBIN_REGEX db) argument with
  | None => Raise (ConversionError no_mystbin_ids)
  | Some (_, groups) => Ok (group_get "id" groups)
  end.

End Converters.

(* ===================================================================== *)
(** ** utilities/paginator.py                                            *)
(* ===================================================================== *)

Module Paginator.

(** [int(value)] once [value.isdigit()] holds: the text has no sign,
    blank or underscore, so the conversion succeeds exactly when every
    character is a decimal digit (a superscript two is a digit for
    [isdigit] and a [ValueError] for [int]).  The platform caps a text
    input at 4000 characters, below the interpreter's limit on the number
    of digits [int] accepts. *)
Definition int_of_digits (db : UnicodeDB) (value : pystr) : result Z :=
  match decimal_value db 0 value with
  | Some n => Ok n
  | None => Raise ValueError
  end.

(** The text of a reply.  [ExpectedNumberNot value] is the f-string
    [f"Expected a number not {value!r}"], kept symbolic in [value]. *)
Inductive Text :=
| Plain (s : pystr)
| ExpectedNumberNot (value : pystr).

(** [NumberedPageModal]: the text input [page]. *)
Record NumberedPageModal := {
  placeholder : pystr;
  min_length : Z;
  max_length : option Z
}.

(** [NumberedPageModal.__init__] *)
Definition NumberedPageModal_init (max_pages : option Z)
  : NumberedPageModal :=
  match max_pages with
  | Some m =>
      let as_string := str_of_int m in
      {| placeholder := lit "Enter a number between 1 and " ++ as_string;
         min_length := 1;
         max_length := Some (len as_string) |}
  | None =>
      {| placeholder := lit "Enter a number";
         min_length := 1;
         max_length := None |}
  end.

Section Pages.

(** A page payload and an embed are whatever the page source makes
    them. *)
Variables Page Embed : Type.

Inductive KwValue :=
| KwStr (s : pystr)
| KwEmbed (e : Embed)
| KwNone.

(** Keyword arguments for [edit]: a dict, empty when there is nothing
    to render. *)
Definition Kwargs := list (pystr * KwValue).

(** What [format_page] may return. *)
Inductive Formatted :=
| FDict (d : Kwargs)
| FStr (s : pystr)
| FEmbed (e : Embed)
| FOther.

(** [menus.PageSource], as the view uses it.  [format_page] receives
    the menu and reads [menu.current_page] from it. *)
Record PageSource := {
  is_paginating : bool;
  get_max_pages : option Z;
  get_page : Z -> result Page;
  format_page : Z -> Page -> result Formatted
}.

Record Button := {
  label : pystr;
  disabled : bool
}.

(** What the view sends to the platform, in order. *)
Inductive Effect :=
| EditMessage (kwargs : Kwargs)      (* interaction.response.edit_message *)
| MessageEdit (kwargs : Kwargs)      (* self.message.edit *)
| SendModal (modal : NumberedPageModal)
| SendMessage (content : Text) (ephemeral : bool)
| FollowupSend (content : Text) (ephemeral : bool).

(** An interaction: whether its response was used, and what was sent
    through it. *)
Record Interaction := {
  is_done : bool;
  sent : list Effect
}.

Definition fresh_interaction : Interaction :=
  {| is_done := false; sent := [] |}.

(** A call on [interaction.response]: it uses the response up. *)
Definition respond (i : Interaction) (e : Effect) : Interaction :=
  {| is_done := true; sent := sent i ++ [e] |}.

(** A call that leaves the response as it is ([followup.send],
    [message.edit]). *)
Definition emit (i : Interaction) (e : Effect) : Interaction :=
  {| is_done := is_done i; sent := sent i ++ [e] |}.

(** The fields of [RoboPages]; [is_finished] is [View.is_finished()]
    and [message] says whether [start] has stored the message. *)
Record RoboPages := {
  source : PageSource;
  message : bool;
  current_page : Z;
  compact : bool;
  is_finished : bool;
  go_to_first_page_button : Button;
  go_to_previous_page_button : Button;
  go_to_current_page_button : Button;
  go_to_next_page_button : Button;
  go_to_last_page_button : Button
}.

(** [RoboPages.__init__], with the labels the decorators give. *)
Definition RoboPages_init (src : PageSource) (compact_mode : bool)
  : RoboPages :=
  {| source := src;
     message := false;
     current_page := 0;
     compact := compact_mode;
     is_finished := false;
     go_to_first_page_button := {| label := [8810%N]; disabled := false |};
     go_to_previous_page_button :=
       {| label := lit "Back"; disabled := false |};
     go_to_current_page_button :=
       {| label := lit "Current"; disabled := true |};
     go_to_next_page_button := {| label := lit "Next"; disabled := false |};
     go_to_last_page_button := {| label := [8811%N]; disabled := false |} |}.

Definition set_current_page (v : RoboPages) (n : Z) : RoboPages :=
  {| source := source v;
     message := message v;
     current_page := n;
     compact := compact v;
     is_finished := is_finished v;
     go_to_first_page_button := go_to_first_page_button v;
     go_to_previous_page_button := go_to_previous_page_button v;
     go_to_current_page_button := go_to_current_page_button v;
     go_to_next_page_button := go_to_next_page_button v;
     go_to_last_page_button := go_to_last_page_button v |}.

Definition set_buttons (v : RoboPages) (first prev cur next last : Button)
  : RoboPages :=
  {| source := source v;
     message := message v;
     current_page := current_page v;
     compact := compact v;
     is_finished := is_finished v;
     go_to_first_page_button := first;
     go_to_previous_page_button := prev;
     go_to_current_page_button := cur;
     go_to_next_page_button := next;
     go_to_last_page_button := last |}.

Definition set_disabled (b : Button) (d : bool) : Button :=
  {| label := label b; disabled := d |}.

(** [RoboPages._update_labels] *)
Definition _update_labels (v : RoboPages) (page_number : Z) : RoboPages :=
  let max_pages := get_max_pages (source v) in
  let at_end :=
    match max_pages with
    | Some m => (page_number + 1 >=? m)%Z
    | None => false
    end in
  if compact v then
    set_buttons v
      (set_disabled (go_to_first_page_button v) (page_number =? 0)%Z)
      (set_disabled (go_to_previous_page_button v) (page_number =? 0)%Z)
      (go_to_current_page_button v)
      (set_disabled (go_to_next_page_button v) at_end)
      (set_disabled (go_to_last_page_button v)
         match max_pages with Some _ => at_end | None => true end)
  else
    let cur :=
      {| label := str_of_int (page_number + 1);
         disabled := disabled (go_to_current_page_button v) |} in
    let prev := {| label := str_of_int page_number; disabled := false |} in
    let next :=
      {| label := str_of_int (page_number + 2); disabled := false |} in
    let first := set_disabled (go_to_first_page_button v) false in
    match max_pages with
    | None => set_buttons v first prev cur next (go_to_last_page_button v)
    | Some m =>
        set_buttons v first
          (if (page_number =? 0)%Z
           then {| label := ellipsis; disabled := true |} else prev)
          cur
          (if at_end then {| label := ellipsis; disabled := true |}
           else next)
          (set_disabled (go_to_last_page_button v) at_end)
    end.

(** [RoboPages._get_kwargs_from_page] *)
Definition _get_kwargs_from_page (v : RoboPages) (page : Page)
  : result Kwargs :=
  match format_page (source v) (current_page v) page with
  | Raise e => Raise e
  | Ok (FDict d) => Ok d
  | Ok (FStr s) => Ok [(lit "content", KwStr s); (lit "embed", KwNone)]
  | Ok (FEmbed e) => Ok [(lit "embed", KwEmbed e); (lit "content", KwNone)]
  | Ok FOther => Ok []
  end.

(** The state a method leaves behind, and the exception it let
    through, if any: an assignment made before the exception stays
    made. *)
Definition Outcome : Type := RoboPages * Interaction * option exn.

(** [RoboPages.show_page] *)
Definition show_page (v : RoboPages) (interaction : Interaction)
    (page_number : Z) : Outcome :=
  match get_page (source v) page_number with
  | Raise e => (v, interaction, Some e)
  | Ok page =>
      let v := set_current_page v page_number in
      match _get_kwargs_from_page v page with
      | Raise e => (v, interaction, Some e)
      | Ok kwargs =>
          let v := _update_labels v page_number in
          match kwargs with
          | [] => (v, interaction, None)
          | _ =>
              if is_done interaction then
                if message v
                then (v, emit interaction (MessageEdit kwargs), None)
                else (v, interaction, None)
              else (v, respond interaction (EditMessage kwargs), None)
          end
      end
  end.

(** [RoboPages.show_checked_page] *)
Definition show_checked_page (v : RoboPages) (interaction : Interaction)
    (page_number : Z) : Outcome :=
  let max_pages := get_max_pages (source v) in
  let '(v', i', raised) :=
    match max_pages with
    | None => show_page v interaction page_number
    | Some m =>
        if ((m >? page_number) && (page_number >=? 0))%Z
        then show_page v interaction page_number
        else (v, interaction, None)
    end in
  match raised with
  | Some IndexError => (v', i', None)
  | _ => (v', i', raised)
  end.

(** The button callbacks. *)
Definition go_to_first_page (v : RoboPages) (interaction : Interaction)
  : Outcome :=
  show_page v interaction 0.

Definition go_to_previous_page (v : RoboPages) (interaction : Interaction)
  : Outcome :=
  show_checked_page v interaction (current_page v - 1).

Definition go_to_next_page (v : RoboPages) (interaction : Interaction)
  : Outcome :=
  show_checked_page v interaction (current_page v + 1).

Definition go_to_last_page (v : RoboPages) (interaction : Interaction)
  : Outcome :=
  match get_max_pages (source v) with
  | Some m => show_page v interaction (m - 1)
  | None => (v, interaction, Some TypeError)
  end.

(** How [await modal.wait()] ends: the modal timed out, or it was
    submitted with [modal.page.value].  [on_submit] stores the
    interaction of the submission in [modal.interaction] and does
    nothing else with it, so that interaction is fresh. *)
Inductive ModalReply :=
| TimedOut
| Submitted (value : pystr).

(** What [numbered_page] leaves behind: the view, the button's
    interaction, the modal's interaction when there is one, and the
    exception let through, if any. *)
Record JumpOutcome := {
  jump_view : RoboPages;
  jump_interaction : Interaction;
  jump_modal_interaction : option Interaction;
  jump_raised : option exn
}.

Definition took_too_long : Text := Plain (lit "Took too long").

(** [RoboPages.numbered_page] *)
Definition numbered_page (db : UnicodeDB) (v : RoboPages)
    (interaction : Interaction) (reply : ModalReply) : JumpOutcome :=
  if negb (message v) then
    {| jump_view := v; jump_interaction := interaction;
       jump_modal_interaction := None; jump_raised := None |}
  else
    let modal := NumberedPageModal_init (get_max_pages (source v)) in
    let interaction := respond interaction (SendModal modal) in
    match reply with
    | TimedOut =>
        {| jump_view := v;
           jump_interaction :=
             emit interaction (FollowupSend took_too_long true);
           jump_modal_interaction := None; jump_raised := None |}
    | Submitted value =>
        let mi := fresh_interaction in
        if is_finished v then
          {| jump_view := v; jump_interaction := interaction;
             jump_modal_interaction :=
               Some (respond mi (SendMessage took_too_long true));
             jump_raised := None |}
        else if negb (isdigit db value) then
          {| jump_view := v; jump_interaction := interaction;
             jump_modal_interaction :=
               Some (respond mi
                       (SendMessage (ExpectedNumberNot value) true));
             jump_raised := None |}
        else
          match int_of_digits db value with
          | Raise e =>
              {| jump_view := v; jump_interaction := interaction;
                 jump_modal_interaction := Some mi;
                 jump_raised := Some e |}
          | Ok n =>
              let '(v', mi', raised) := show_checked_page v mi (n - 1) in
              match raised with
              | Some e =>
                  {| jump_view := v'; jump_interaction := interaction;
                     jump_modal_interaction := Some mi';
                     jump_raised := Some e |}
              | None =>
                  if negb (is_done mi') then
                    let error :=
                      replace (placeholder modal)
                        (lit "Enter") (lit "Expected") in
                    {| jump_view := v'; jump_interaction := interaction;
                       jump_modal_interaction :=
                         Some (respond mi'
                                 (SendMessage (Plain error) true));
                       jump_raised := None |}
                  else
                    {| jump_view := v'; jump_interaction := interaction;
                       jump_modal_interaction := Some mi';
                       jump_raised := None |}
              end
          end
    end.

End Pages.

End Paginator.


(* ===================================================================== *)
(** ** Vocabulary of the statements                                      *)
(* ===================================================================== *)

(** A string with no white space at its left end. *)
Definition no_lead (s : pystr) : Prop :=
  match s with
  | [] => True
  | c :: _ => isspace c = false
  end.

(** [s] begins with one of the filler prefixes the splitter removes. *)
Definition has_filler_prefix (s : pystr) : bool :=
  existsb (startswith s) Converters.filler_prefixes.

(** [s] ends with the suffix the splitter removes. *)
Definition has_filler_suffix (s : pystr) : bool :=
  endswith s (lit "from now").

(** The characters [lstrip] removes in front of the residual label. *)
Definition separators : pystr := lit " ,.!:;".

(** The loop over [("to ",)] that follows the slicing. *)
Definition strip_to (what : pystr) : pystr :=
  Converters.strip_each_prefix [lit "to "] what.

(** [what or "…"] *)
Definition or_ellipsis (what : pystr) : pystr :=
  match what with
  | [] => ellipsis
  | _ => what
  end.

(** The prefix-command context that reads what a slash-command
    interaction reads: outside a guild the transformer does not look the
    time zone up. *)
Definition context_of (i : Converters.Interaction) : Converters.Context :=
  {| Converters.ctx_tz_row :=
       if Converters.int_guild i then Converters.int_tz_row i else None;
     Converters.ctx_created_at := Converters.int_created_at i;
     Converters.ctx_duckling_key := Converters.int_duckling_key i |}.

(** The slash-command error class in place of the prefix-command one. *)
Definition as_transform_error (e : exn) : exn :=
  match e with
  | BadArgument msg => BadDatetimeTransform msg
  | _ => e
  end.

(** *** Sample inputs *)

Module Samples.

Import Converters.

Definition two_hours (first last : Z) : DucklingResponse :=
  {| dim := duration; start := first; end_ := last;
     value_value := None; normalized_value := 7200 |}.

Definition tomorrow_iso : pystr := lit "2023-11-15T00:00:00.000+00:00".

(** A stand-in for Duckling that knows two phrases: "in 2 hours" (a
    duration, wherever it stands in the texts below) and "tomorrow" (a
    time, at the start of the text). *)
Definition sample_duckling (tz text : pystr) : list DucklingResponse :=
  if startswith text (lit "in 2 hours") then [two_hours 0 10]
  else if startswith text (lit "tomorrow") then
    [{| dim := time; start := 0; end_ := 8;
        value_value := Some tomorrow_iso; normalized_value := 0 |}]
  else if endswith text (lit "in 2 hours") then
    [two_hours (len text - 10) (len text)]
  else if str_eqb text (lit "buy milk in 2 hours please") then
    [two_hours 9 19]
  else [].

Definition sample_fromisoformat (s : pystr) : option datetime :=
  if str_eqb s tomorrow_iso then Some 1700006400000000%Z else None.

(** The clock stands at 2023-11-14T22:13:20Z and advances by a
    microsecond per reading. *)
Definition sample_world : World :=
  {| clock := fun k => (1700000000000000 + Z.of_nat k)%Z;
     duckling := sample_duckling;
     fromisoformat := sample_fromisoformat |}.

(** A command message created ten seconds before the clock's first
    reading, by a user with no stored time zone. *)
Definition sample_ctx : Context :=
  {| ctx_tz_row := None;
     ctx_created_at := 1699999990000000%Z;
     ctx_duckling_key := true |}.

Definition sample_interaction : Interaction :=
  {| int_guild := true;
     int_tz_row := None;
     int_created_at := 1699999990000000%Z;
     int_duckling_key := true |}.

End Samples.

(** The stripped characters as the specification lists them (no
    exclamation mark). *)
Definition listed_separators : pystr := lit " ,.:;".

(** A continuation that accepts whatever it is given. *)
Definition accepts_all (k : Converters.Cont) : Prop :=
  forall s g, k s g <> None.

(** A pattern that matches at every position before an accepting
    continuation: it can match the empty string. *)
Definition always_matches (r : Converters.Regex) : Prop :=
  forall k, accepts_all k -> forall s g, r s g k <> None.

(** Every match of the pattern is handed out by its continuation, with
    the groups captured so far still there. *)
Definition passes_on (r : Converters.Regex) : Prop :=
  forall s g k m,
    r s g k = Some m -> exists s' l, k s' (l ++ g) = Some m.

(** The view and the interaction a button callback leaves behind. *)
Definition view_of {Page Embed : Type} (o : Paginator.Outcome Page Embed)
  : Paginator.RoboPages Page Embed :=
  fst (fst o).

(** The placeholder of the modal for [m] pages, with "Enter" replaced by
    "Expected", as the text it is. *)
Definition expected_between (m : Z) : pystr :=
  lit "Expected a number between 1 and " ++ str_of_int m.

Module PageSamples.

Import Paginator.

(** The Unicode tables cut down to ASCII. *)
Definition ascii_db : UnicodeDB.
Proof.
  refine {| isdigit_char := fun c => (48 <=? c) && (c <=? 57);
            todecimal := fun c =>
              if (48 <=? c) && (c <=? 57)
              then Some (Z.of_N c - 48)%Z else None;
            isword_char := fun c =>
              (48 <=? c) && (c <=? 57) || (65 <=? c) && (c <=? 90)
              || (97 <=? c) && (c <=? 122) || (c =? 95) |}%N.
  - intros c H. apply andb_true_iff. split; apply N.leb_le; apply H.
  - intros c H.
    replace ((48 <=? c)%N && (c <=? 57)%N) with true; [reflexivity|].
    symmetry. apply andb_true_iff. split; apply N.leb_le; apply H.
Defined.

(** A list page source over [entries] with one entry per page, as
    [menus.ListPageSource] behaves: [get_page] indexes the list the way
    Python does. *)
Definition list_source (entries : list pystr) : PageSource pystr unit :=
  {| is_paginating := (1 <? length entries)%nat;
     get_max_pages := Some (len (map (fun _ => 0%N) entries));
     get_page := fun n =>
       let size := Z.of_nat (length entries) in
       let at_ := if (n <? 0)%Z then (n + size)%Z else n in
       if ((0 <=? at_) && (at_ <? size))%Z
       then match nth_error entries (Z.to_nat at_) with
            | Some e => Ok e
            | None => Raise IndexError
            end
       else Raise IndexError;
     format_page := fun _ entry => Ok (FStr unit entry) |}.

Definition ten_pages : PageSource pystr unit :=
  list_source
    [lit "a"; lit "b"; lit "c"; lit "d"; lit "e";
     lit "f"; lit "g"; lit "h"; lit "i"; lit "j"].

(** A source that does not know how many pages it has and answers every
    page number. *)
Definition endless_source : PageSource pystr unit :=
  {| is_paginating := true;
     get_max_pages := None;
     get_page := fun n => Ok (str_of_int n);
     format_page := fun _ page => Ok (FStr unit page) |}.

(** The view as [start] leaves it: labels for page 0, message stored. *)
Definition started (src : PageSource pystr unit) : RoboPages pystr unit :=
  let v := _update_labels (RoboPages_init src false) 0 in
  {| source := source v;
     message := true;
     current_page := current_page v;
     compact := compact v;
     is_finished := is_finished v;
     go_to_first_page_button := go_to_first_page_button v;
     go_to_previous_page_button := go_to_previous_page_button v;
     go_to_current_page_button := go_to_current_page_button v;
     go_to_next_page_button := go_to_next_page_button v;
     go_to_last_page_button := go_to_last_page_button v |}.

End PageSamples.

From Stdlib Require DecimalPos.

(* ===================================================================== *)
(** ** Further vocabulary: the converters                                *)
(* ===================================================================== *)

(** A candidate [parse] keeps: every duration, and a time that carries a
    value. *)
Definition usable (t : Converters.DucklingResponse) : bool :=
  match Converters.dim t, Converters.value_value t with
  | Converters.time, None => false
  | _, _ => true
  end.

Definition is_duration (t : Converters.DucklingResponse) : bool :=
  match Converters.dim t with
  | Converters.duration => true
  | Converters.time => false
  end.

(** The span of a candidate and of an entry of [times]. *)
Definition candidate_span (t : Converters.DucklingResponse) : Z * Z :=
  (Converters.start t, Converters.end_ t).

Definition parsed_span (p : Converters.Parsed) : Z * Z :=
  (snd (fst p), snd p).

(** [what] is a contiguous part of [text]. *)
Definition part_of (what text : pystr) : Prop :=
  exists before after, text = before ++ what ++ after.

Module MoreSamples.

Import Converters Samples.

(** A stand-in for Duckling that answers every text with two candidates:
    a duration over the first ten characters, then a time whose value is
    not an ISO date. *)
Definition second_is_malformed (tz text : pystr) : list DucklingResponse :=
  [two_hours 0 10;
   {| dim := time; start := 11; end_ := 15;
      value_value := Some (lit "soon"); normalized_value := 0 |}].

Definition malformed_world : World :=
  {| clock := clock sample_world;
     duckling := second_is_malformed;
     fromisoformat := sample_fromisoformat |}.

(** A stand-in that answers with one time candidate without a value (an
    interval, in Duckling's terms). *)
Definition only_an_interval (tz text : pystr) : list DucklingResponse :=
  [{| dim := time; start := 0; end_ := 7;
      value_value := None; normalized_value := 0 |}].

Definition interval_world : World :=
  {| clock := clock sample_world;
     duckling := only_an_interval;
     fromisoformat := sample_fromisoformat |}.

End MoreSamples.

(* ===================================================================== *)
(** ** Further vocabulary: paste references                              *)
(* ===================================================================== *)

(** A pattern without groups hands the groups on as it found them. *)
Definition keeps_groups (r : Converters.Regex) : Prop :=
  forall s g k m, r s g k = Some m -> exists s', k s' g = Some m.

Definition is_upper (c : char) : bool :=
  (N_of_ascii "A" <=? c)%N && (c <=? N_of_ascii "Z")%N.

Definition is_lower (c : char) : bool :=
  (N_of_ascii "a" <=? c)%N && (c <=? N_of_ascii "z")%N.

(** One word of a paste id: a capital letter and at least one lower-case
    letter. *)
Definition id_word (word : pystr) : Prop :=
  match word with
  | c :: l :: ls => is_upper c = true /\ forallb is_lower (l :: ls) = true
  | _ => False
  end.

(** The text that follows does not go on with a letter. *)
Definition no_letter_ahead (rest : pystr) : Prop :=
  match rest with
  | [] => True
  | c :: _ => is_upper c = false /\ is_lower c = false
  end.

(** The forms of the optional URL prefix, the empty one included. *)
Definition url_prefixes : list pystr :=
  [ []; lit "mystb.in/"; lit "beta.mystb.in/";
    lit "http://mystb.in/"; lit "https://mystb.in/";
    lit "http://beta.mystb.in/"; lit "https://beta.mystb.in/" ].

(** The first two parts of [MYSTBIN_REGEX], by name. *)
Definition url_prefix_regex : Converters.Regex :=
  Converters.re_seq
    (Converters.re_opt
       (Converters.re_seq (Converters.re_lit "http")
          (Converters.re_seq (Converters.re_opt (Converters.re_char 115%N))
             (Converters.re_lit "://"))))
    (Converters.re_seq (Converters.re_opt (Converters.re_lit "beta."))
       (Converters.re_lit "mystb.in/")).

Definition id_word_regex : Converters.Regex :=
  Converters.re_seq (Converters.re_range "A" "Z")
    (Converters.re_plus (Converters.re_range "a" "z")).

Definition ext_regex (db : UnicodeDB) : Converters.Regex :=
  Converters.re_opt
    (Converters.re_group "ext"
       (Converters.re_seq (Converters.re_char 46%N)
          (Converters.re_plus (Converters.re_class (isword_char db))))).

(* ===================================================================== *)
(** ** utilities/paginator.py, continued                                 *)
(* ===================================================================== *)

Module PaginatorItems.

Import Paginator.

(** The controls of the view, by the name of their callback. *)
Inductive Item :=
| go_to_first_page_item
| go_to_previous_page_item
| go_to_current_page_item
| go_to_next_page_item
| go_to_last_page_item
| numbered_page_item
| stop_pages_item.

(** What [fill_items] leaves: the rows it assigns to two of the buttons
    ([None] is the decorator's default) and the items it adds, in
    order. *)
Record Filled := {
  numbered_page_row : option Z;
  stop_pages_row : option Z;
  children : list Item
}.

(** One click on a control: for the jump control, with the way the modal
    ends. *)
Inductive Press :=
| press_first
| press_previous
| press_next
| press_last
| press_jump (reply : ModalReply).

Section Items.

Variables Page Embed : Type.

(** [RoboPages.fill_items], after the [clear_items] of [__init__]. *)
Definition fill_items (v : RoboPages Page Embed) : Filled :=
  let row := if negb (compact v) then Some 1%Z else None in
  {| numbered_page_row := row;
     stop_pages_row := row;
     children :=
       if is_paginating (source v) then
         let max_pages := get_max_pages (source v) in
         let use_last_and_first :=
           match max_pages with
           | Some m => (m >=? 2)%Z
           | None => false
           end in
         (if use_last_and_first then [go_to_first_page_item] else [])
         ++ [go_to_previous_page_item]
         ++ (if negb (compact v) then [go_to_current_page_item] else [])
         ++ [go_to_next_page_item]
         ++ (if use_last_and_first then [go_to_last_page_item] else [])
         ++ (if negb (compact v) then [numbered_page_item] else [])
         ++ [stop_pages_item]
       else [] |}.

(** The view after one click; the platform delivers each click on an
    interaction of its own. *)
Definition after_press (db : UnicodeDB) (v : RoboPages Page Embed)
    (p : Press) : RoboPages Page Embed :=
  match p with
  | press_first => view_of (go_to_first_page v (fresh_interaction Embed))
  | press_previous =>
      view_of (go_to_previous_page v (fresh_interaction Embed))
  | press_next => view_of (go_to_next_page v (fresh_interaction Embed))
  | press_last => view_of (go_to_last_page v (fresh_interaction Embed))
  | press_jump reply =>
      jump_view (numbered_page db v (fresh_interaction Embed) reply)
  end.

(** The view after a series of clicks. *)
Definition after_presses (db : UnicodeDB) (v : RoboPages Page Embed)
    (ps : list Press) : RoboPages Page Embed :=
  fold_left (after_press db) ps v.

End Items.

End PaginatorItems.

(* ===================================================================== *)
(** ** Further vocabulary: decimal text                                  *)
(* ===================================================================== *)

(** The number a run of decimal digits stands for, most significant digit
    first, continuing from [acc]. *)
Fixpoint uint_value (acc : Z) (u : Decimal.uint) : Z :=
  match u with
  | Decimal.Nil => acc
  | Decimal.D0 u' => uint_value (10 * acc + 0) u'
  | Decimal.D1 u' => uint_value (10 * acc + 1) u'
  | Decimal.D2 u' => uint_value (10 * acc + 2) u'
  | Decimal.D3 u' => uint_value (10 * acc + 3) u'
  | Decimal.D4 u' => uint_value (10 * acc + 4) u'
  | Decimal.D5 u' => uint_value (10 * acc + 5) u'
  | Decimal.D6 u' => uint_value (10 * acc + 6) u'
  | Decimal.D7 u' => uint_value (10 * acc + 7) u'
  | Decimal.D8 u' => uint_value (10 * acc + 8) u'
  | Decimal.D9 u' => uint_value (10 * acc + 9) u'
  end.

(* ===================================================================== *)
(** ** utilities/converters.py, continued: [MemeDict]                    *)
(* ===================================================================== *)

Module Meme.

Section MemeDict.

(** Keys are containers of elements: [contains k key] is Python's
    [k in key], and [key_eqb] is the equality the dict compares keys
    with. *)
Variables Key Elt Value : Type.
Variable contains : Elt -> Key -> bool.
Variable key_eqb : Key -> Key -> bool.

(** A dict, as its items in insertion order. *)
Definition Dict := list (Key * Value).

(** [dict.__getitem__]; [None] stands for [KeyError]. *)
Fixpoint dict_getitem (d : Dict) (key : Key) : option Value :=
  match d with
  | [] => None
  | (key', v) :: d' => if key_eqb key' key then Some v else dict_getitem d' key
  end.

(** [MemeDict.__getitem__]: the keys are tried in insertion order. *)
Definition MemeDict_getitem (d : Dict) (k : Elt) : option Value :=
  match find (contains k) (map fst d) with
  | Some key => dict_getitem d key
  | None => None
  end.

End MemeDict.

End Meme.

(* ===================================================================== *)
(** ** utilities/converters.py, continued: [RedditMediaURL]              *)
(* ===================================================================== *)

Module Reddit.

Import Converters.

(** What the code reads of a [yarl.URL]. *)
Record URL := {
  host : option pystr;
  path : pystr;
  parts : list pystr
}.

Unset Elimination Schemes.

(** A decoded JSON value; an object is its items, one for each key. *)
Inductive JSON :=
| JNull
| JBool (b : bool)
| JNumber (n : Z)
| JStr (s : pystr)
| JList (l : list JSON)
| JDict (d : list (pystr * JSON)).

Set Elimination Schemes.

(** The outcome of a subscript [x[...]]. *)
Inductive Subscript :=
| Found (x : JSON)
| NoKey               (* KeyError *)
| NotSubscriptable    (* TypeError *)
| NoIndex.            (* IndexError *)

Fixpoint items_get (d : list (pystr * JSON)) (key : pystr) : Subscript :=
  match d with
  | [] => NoKey
  | (k, v) :: d' => if str_eqb k key then Found v else items_get d' key
  end.

(** [x[key]] for a string [key]: only a dict takes it. *)
Definition getitem_key (x : JSON) (key : string) : Subscript :=
  match x with
  | JDict d => items_get d (lit key)
  | _ => NotSubscriptable
  end.

(** [x[0]]: the first element of a list, the first character of a
    string; a decoded object has no key 0. *)
Definition getitem_0 (x : JSON) : Subscript :=
  match x with
  | JList (e :: _) => Found e
  | JList [] => NoIndex
  | JStr (c :: _) => Found (JStr [c])
  | JStr [] => NoIndex
  | JDict _ => NoKey
  | _ => NotSubscriptable
  end.

(** A chain of subscripts stops at the first one that raises. *)
Definition then_key (r : Subscript) (key : string) : Subscript :=
  match r with
  | Found x => getitem_key x key
  | _ => r
  end.

Definition then_0 (r : Subscript) : Subscript :=
  match r with
  | Found x => getitem_0 x
  | _ => r
  end.

(** The response of [session.get]. *)
Record Response := {
  status : Z;
  resp_url : URL;
  json : result JSON        (* [await resp.json()] *)
}.

(** What lies outside: the [yarl.URL] constructor on a string (it may
    raise), the HTTP session, and [url / name]. *)
Record Web := {
  yarl_URL : pystr -> result URL;
  session_get : URL -> Response;
  url_join : URL -> pystr -> URL
}.

Record RedditMediaURL := {
  url : URL;
  filename : pystr
}.

(** [RedditMediaURL.__init__]: [url.parts[1] + ".mp4"]. *)
Definition RedditMediaURL_init (u : URL) : result RedditMediaURL :=
  match parts u with
  | _ :: part :: _ => Ok {| url := u; filename := part ++ lit ".mp4" |}
  | _ => Raise IndexError
  end.

Definition is_subreddit_char (c : char) : bool :=
  is_upper c || is_lower c
  || ((N_of_ascii "0" <=? c) && (c <=? N_of_ascii "9"))%N || (c =? 95)%N.

Definition is_alnum_char (c : char) : bool :=
  is_upper c || is_lower c
  || ((N_of_ascii "0" <=? c) && (c <=? N_of_ascii "9"))%N.

(** [VALID_PATH]: [/r/], one or more of [[A-Za-z0-9_]], [/comments/], one
    or more of [[A-Za-z0-9]], and optionally a slash followed by one or
    more characters other than a line feed. *)
Definition VALID_PATH : Regex :=
  re_seq (re_lit "/r/")
    (re_seq (re_plus (re_class is_subreddit_char))
       (re_seq (re_lit "/comments/")
          (re_seq (re_plus (re_class is_alnum_char))
             (re_opt
                (re_seq (re_char 47%N)
                   (re_plus (re_class (fun c => negb (c =? 10)%N)))))))).

(** The constructor of [yarl.URL] on a JSON value: anything but a string
    is a [TypeError]. *)
Definition yarl_URL_of (web : Web) (x : JSON) : result URL :=
  match x with
  | JStr s => yarl_URL web s
  | _ => Raise TypeError
  end.

(** [RedditMediaURL.convert] *)
Definition convert (web : Web) (argument : pystr) : result RedditMediaURL :=
  match yarl_URL web argument with
  | Raise _ => Raise (BadArgument (lit "Not a valid URL."))
  | Ok url =>
      let url :=
        match host url with
        | Some h =>
            if str_eqb h (lit "v.redd.it")
            then resp_url (session_get web url)
            else url
        | None => url
        end in
      match host url with
      | None => Raise (BadArgument (lit "Not a valid v.reddit url."))
      | Some h =>
          let is_valid_path :=
            endswith h (lit ".reddit.com")
            && match re_match VALID_PATH (path url) with
               | Some _ => true
               | None => false
               end in
          if negb is_valid_path
          then Raise (BadArgument (lit "Not a reddit URL."))
          else
            let resp := session_get web (url_join web url (lit ".json")) in
            if negb (status resp =? 200)%Z
            then Raise (BadArgument
                          (lit "Reddit API failed with "
                           ++ str_of_int (status resp) ++ lit "."))
            else
              match json resp with
              | Raise e => Raise e
              | Ok data =>
                  match
                    then_key
                      (then_0
                         (then_key (then_key (getitem_0 data) "data")
                            "children"))
                      "data"
                  with
                  | Found submission =>
                      let media :=
                        match
                          then_key (getitem_key submission "media")
                            "reddit_video"
                        with
                        | Found media => Ok media
                        | NoIndex => Raise IndexError
                        | _ =>
                            match
                              then_key
                                (then_key
                                   (then_0
                                      (getitem_key submission
                                         "crosspost_parent_list"))
                                   "media")
                                "reddit_video"
                            with
                            | Found media => Ok media
                            | _ =>
                                Raise (BadArgument
                                         (lit "Could not fetch media information."))
                            end
                        end in
                      match media with
                      | Raise e => Raise e
                      | Ok media =>
                          match getitem_key media "fallback_url" with
                          | Found x =>
                              match yarl_URL_of web x with
                              | Ok fallback_url =>
                                  RedditMediaURL_init fallback_url
                              | Raise e => Raise e
                              end
                          | NoKey =>
                              Raise (BadArgument
                                       (lit "Could not fetch fall back URL."))
                          | NotSubscriptable => Raise TypeError
                          | NoIndex => Raise IndexError
                          end
                      end
                  | _ => Raise (BadArgument (lit "Could not fetch submission."))
                  end
              end
      end
  end.

End Reddit.

(* ===================================================================== *)
(** ** Further vocabulary: the Reddit converter                          *)
(* ===================================================================== *)

(** Every match of the pattern consumes a text of the language [L] and
    hands the rest on, with the groups as they were. *)
Definition recognises (r : Converters.Regex) (L : pystr -> Prop) : Prop :=
  forall s g k m,
    r s g k = Some m ->
    exists pre s', s = pre ++ s' /\ L pre /\ k s' g = Some m.

(** The URL the checks of [convert] are made on: the target of the
    redirect for a [v.redd.it] link, the URL itself otherwise. *)
Definition resolved (web : Reddit.Web) (u : Reddit.URL) : Reddit.URL :=
  match Reddit.host u with
  | Some h =>
      if str_eqb h (lit "v.redd.it")
      then Reddit.resp_url (Reddit.session_get web u)
      else u
  | None => u
  end.

(** The listing [convert] fetches for a URL that passed its checks. *)
Definition listing_response (web : Reddit.Web) (u : Reddit.URL)
  : Reddit.Response :=
  Reddit.session_get web (Reddit.url_join web (resolved web u) (lit ".json")).

(** [data[0]["data"]["children"][0]["data"]] *)
Definition submission_of (data : Reddit.JSON) : Reddit.Subscript :=
  Reddit.then_key
    (Reddit.then_0
       (Reddit.then_key (Reddit.then_key (Reddit.getitem_0 data) "data")
          "children"))
    "data".

(** [submission["media"]["reddit_video"]] *)
Definition own_video (submission : Reddit.JSON) : Reddit.Subscript :=
  Reddit.then_key (Reddit.getitem_key submission "media") "reddit_video".

(** [submission["crosspost_parent_list"][0]["media"]["reddit_video"]] *)
Definition crosspost_video (submission : Reddit.JSON) : Reddit.Subscript :=
  Reddit.then_key
    (Reddit.then_key
       (Reddit.then_0 (Reddit.getitem_key submission "crosspost_parent_list"))
       "media")
    "reddit_video".

(** The request got as far as a submission: the argument is a URL, the
    resolved URL is on a subdomain of reddit.com with a submission path,
    the listing came back with status 200 and holds a submission. *)
Definition reaches_submission (web : Reddit.Web) (argument : pystr)
    (submission : Reddit.JSON) : Prop :=
  exists u h data,
    Reddit.yarl_URL web argument = Ok u
    /\ Reddit.host (resolved web u) = Some h
    /\ endswith h (lit ".reddit.com") = true
    /\ Converters.re_match Reddit.VALID_PATH (Reddit.path (resolved web u))
       <> None
    /\ Reddit.status (listing_response web u) = 200%Z
    /\ Reddit.json (listing_response web u) = Ok data
    /\ submission_of data = Reddit.Found submission.

Module RedditSamples.

Import Reddit.

Definition submission_url : URL :=
  {| host := Some (lit "www.reddit.com");
     path := lit "/r/aww/comments/abc123/a_cat";
     parts := [lit "/"; lit "r"; lit "aww"; lit "comments"; lit "abc123";
               lit "a_cat"] |}.

Definition video_url : URL :=
  {| host := Some (lit "v.redd.it");
     path := lit "/xyz789/DASH_720.mp4";
     parts := [lit "/"; lit "xyz789"; lit "DASH_720.mp4"] |}.

Definition video_record (address : string) : JSON :=
  JDict [(lit "fallback_url", JStr (lit address))].

Definition listing_of (submission : JSON) : JSON :=
  JList [JDict [(lit "kind", JStr (lit "Listing"));
                (lit "data",
                 JDict [(lit "children",
                         JList [JDict [(lit "data", submission)]])])]].

(** A video post, a cross-post of a video post, and a text post. *)
Definition video_post : JSON :=
  JDict [(lit "title", JStr (lit "a cat"));
         (lit "media",
          JDict [(lit "reddit_video",
                  video_record "https://v.redd.it/xyz789/DASH_720.mp4")])].

Definition cross_post : JSON :=
  JDict [(lit "media", JNull);
         (lit "crosspost_parent_list", JList [video_post])].

Definition text_post : JSON :=
  JDict [(lit "title", JStr (lit "a question")); (lit "media", JNull)].

(** A post whose video record is null. *)
Definition broken_post : JSON :=
  JDict [(lit "media", JDict [(lit "reddit_video", JNull)])].

(** A web in which every listing holds [submission]. *)
Definition web_with (submission : JSON) : Web :=
  {| yarl_URL := fun s =>
       if str_eqb s (lit "https://www.reddit.com/r/aww/comments/abc123/a_cat")
       then Ok submission_url
       else if str_eqb s (lit "https://v.redd.it/xyz789/DASH_720.mp4")
       then Ok video_url
       else if str_eqb s (lit "https://reddit.com/r/aww/comments/abc123")
       then Ok {| host := Some (lit "reddit.com");
                  path := lit "/r/aww/comments/abc123";
                  parts := [lit "/"; lit "r"; lit "aww"; lit "comments";
                            lit "abc123"] |}
       else Raise ValueError;
     session_get := fun u =>
       {| status := 200; resp_url := submission_url;
          json := Ok (listing_of submission) |};
     url_join := fun u name => u |}.

End RedditSamples.

Module MorePageSamples.

Import Paginator PageSamples.

(** Three pages, the second of which cannot be formatted. *)
Definition fragile_source : PageSource pystr unit :=
  {| is_paginating := true;
     get_max_pages := Some 3%Z;
     get_page := get_page (list_source [lit "a"; lit "b"; lit "c"]);
     format_page := fun current entry =>
       if (current =? 1)%Z then Raise IndexError
       else Ok (FStr unit entry) |}.

(** A dict whose keys are strings, looked up by one character. *)
Definition vowels_and_digits : Meme.Dict pystr nat :=
  [(lit "aeiou", 1%nat); (lit "0123456789", 2%nat); (lit "a1", 3%nat)].

End MorePageSamples.

(* ===================================================================== *)
(** ** utilities/paginator.py, continued: [start]                        *)
(* ===================================================================== *)

Module PaginatorStart.

Import Paginator.

Section Start.

Variables Page Embed : Type.

(** [kwargs.setdefault(key, value)] *)
Definition setdefault (kwargs : Kwargs Embed) (key : pystr)
    (value : KwValue Embed) : Kwargs Embed :=
  if existsb (fun item => str_eqb (fst item) key) kwargs
  then kwargs
  else kwargs ++ [(key, value)].

(** What [ctx.send] was called with. *)
Inductive Sent :=
| SentNotice (text : pystr) (ephemeral : bool)
| SentPage (kwargs : Kwargs Embed) (ephemeral : bool).

(** What [start] leaves behind. *)
Record Started := {
  started_view : RoboPages Page Embed;
  started_sent : option Sent;
  started_raised : option exn
}.

Definition with_message (v : RoboPages Page Embed) : RoboPages Page Embed :=
  {| source := source v;
     message := true;
     current_page := current_page v;
     compact := compact v;
     is_finished := is_finished v;
     go_to_first_page_button := go_to_first_page_button v;
     go_to_previous_page_button := go_to_previous_page_button v;
     go_to_current_page_button := go_to_current_page_button v;
     go_to_next_page_button := go_to_next_page_button v;
     go_to_last_page_button := go_to_last_page_button v |}.

(** [RoboPages.start]; [check_embeds] is the flag given to [__init__] and
    [embed_links] the bot's permission in the channel.  The source's
    [_prepare_once] is taken to return. *)
Definition start (v : RoboPages Page Embed) (check_embeds embed_links : bool)
    (content : option pystr) (ephemeral : bool) : Started :=
  if check_embeds && negb embed_links then
    {| started_view := v;
       started_sent :=
         Some (SentNotice
                 (lit "Bot does not have embed links permission in this channel.")
                 true);
       started_raised := None |}
  else
    match get_page (source v) 0 with
    | Raise e =>
        {| started_view := v; started_sent := None;
           started_raised := Some e |}
    | Ok page =>
        match _get_kwargs_from_page v page with
        | Raise e =>
            {| started_view := v; started_sent := None;
               started_raised := Some e |}
        | Ok kwargs =>
            let kwargs :=
              match content with
              | Some (c :: s) =>
                  setdefault kwargs (lit "content") (KwStr Embed (c :: s))
              | _ => kwargs
              end in
            let v := _update_labels v 0 in
            {| started_view := with_message v;
               started_sent := Some (SentPage kwargs ephemeral);
               started_raised := None |}
        end
    end.

End Start.

End PaginatorStart.

(* ===================================================================== *)
(** ** Facts about the built-ins                                         *)
(* ===================================================================== *)

Section BuiltinFacts.

Lemma dropwhile_length (p : char -> bool) (s : pystr) :
  (length (dropwhile p s) <= length s)%nat.
Proof.
  induction s as [|c s IH]; simpl; [lia|].
  destruct (p c); simpl; lia.
Qed.

Lemma dropwhile_snoc (p : char -> bool) (s : pystr) (c : char) :
  p c = false -> dropwhile p (s ++ [c]) = dropwhile p s ++ [c].
Proof.
  intros Hc. induction s as [|x s IH]; simpl.
  - now rewrite Hc.
  - destruct (p x); [exact IH | reflexivity].
Qed.

Lemma dropwhile_no_lead (s : pystr) : no_lead (dropwhile isspace s).
Proof.
  induction s as [|c s IH]; simpl; [exact I|].
  destruct (isspace c) eqn:E; [exact IH | exact E].
Qed.

Lemma dropwhile_fixed (s : pystr) : no_lead s -> dropwhile isspace s = s.
Proof.
  destruct s as [|c s]; simpl; [reflexivity|].
  intros ->. reflexivity.
Qed.

Lemma rstrip_keeps_no_lead (s : pystr) : no_lead s -> no_lead (rstrip s).
Proof.
  destruct s as [|c s]; [intros _; exact I|].
  simpl. intros Hc. unfold rstrip. simpl.
  rewrite dropwhile_snoc by exact Hc. rewrite rev_app_distr. exact Hc.
Qed.

Lemma strip_no_lead (s : pystr) : no_lead (strip s).
Proof. apply rstrip_keeps_no_lead, dropwhile_no_lead. Qed.

Lemma strip_no_trail (s : pystr) : no_lead (rev (strip s)).
Proof.
  unfold strip, rstrip. rewrite rev_involutive. apply dropwhile_no_lead.
Qed.

Lemma strip_fixed (s : pystr) :
  no_lead s -> no_lead (rev s) -> strip s = s.
Proof.
  intros Hl Hr. unfold strip, lstrip, rstrip.
  rewrite (dropwhile_fixed _ Hl), (dropwhile_fixed _ Hr).
  apply rev_involutive.
Qed.

(** [s.strip().strip() == s.strip()] *)
Lemma strip_strip (s : pystr) : strip (strip s) = strip s.
Proof. apply strip_fixed; [apply strip_no_lead | apply strip_no_trail]. Qed.

Lemma strip_length (s : pystr) : (length (strip s) <= length s)%nat.
Proof.
  unfold strip, rstrip, lstrip. rewrite length_rev.
  etransitivity; [apply dropwhile_length|].
  rewrite length_rev. apply dropwhile_length.
Qed.

Lemma startswith_length (s p : pystr) :
  startswith s p = true -> (length p <= length s)%nat.
Proof.
  revert s. induction p as [|y p IH]; intros [|x s]; simpl; try lia;
    try discriminate.
  intros H. apply andb_true_iff in H. destruct H as [_ H].
  apply IH in H. lia.
Qed.

Lemma slice_from_length (s : pystr) (lo : Z) :
  (0 <= lo <= len s)%Z ->
  length (slice_from s lo) = (length s - Z.to_nat lo)%nat.
Proof.
  intros H. unfold slice_from, clip.
  destruct (Z.ltb_spec lo 0); [lia|].
  rewrite Z.min_l by lia. apply length_skipn.
Qed.

Lemma slice_to_negative_length (s : pystr) (n : Z) :
  (0 < n <= len s)%Z ->
  length (slice_to s (- n)) = (length s - Z.to_nat n)%nat.
Proof.
  intros H. unfold slice_to, clip.
  destruct (Z.ltb_spec (- n) 0); [|lia].
  rewrite Z.max_l by lia. rewrite length_firstn. unfold len in *. lia.
Qed.

End BuiltinFacts.

(* ===================================================================== *)
(** ** The fixed prefix and suffix strip of the splitter                 *)
(* ===================================================================== *)

Section StripCommonStuff.

Import Converters.

Lemma slice_to_length_le (s : pystr) (hi : Z) :
  (length (slice_to s hi) <= length s)%nat.
Proof. unfold slice_to. rewrite length_firstn. lia. Qed.

Lemma endswith_length (s p : pystr) :
  endswith s p = true -> (length p <= length s)%nat.
Proof.
  unfold endswith. intros H. apply startswith_length in H.
  now rewrite !length_rev in H.
Qed.

Lemma strip_first_prefix_absent (ps : list pystr) (s : pystr) :
  existsb (startswith s) ps = false -> strip_first_prefix ps s = s.
Proof.
  induction ps as [|p ps IH]; simpl; [reflexivity|].
  intros H. apply orb_false_iff in H. destruct H as [Hp Hps].
  rewrite Hp. now apply IH.
Qed.

Lemma strip_first_prefix_shrinks (ps : list pystr) (s : pystr) :
  Forall (fun p => p <> []) ps ->
  existsb (startswith s) ps = true ->
  (length (strip_first_prefix ps s) < length s)%nat.
Proof.
  induction 1 as [|p ps Hp _ IH]; simpl; [discriminate|].
  destruct (startswith s p) eqn:E; simpl.
  - intros _. pose proof (startswith_length _ _ E) as Hlen.
    rewrite slice_from_length by (unfold len; lia).
    unfold len. rewrite Nat2Z.id.
    destruct p; [congruence | simpl in *; lia].
  - exact IH.
Qed.

Lemma strip_each_suffix_length (ss : list pystr) (s : pystr) :
  (length (strip_each_suffix ss s) <= length s)%nat.
Proof.
  revert s. induction ss as [|x ss IH]; intros s; simpl; [lia|].
  etransitivity; [apply IH|].
  destruct (endswith s x); [apply slice_to_length_le | lia].
Qed.

Lemma filler_prefixes_nonempty : Forall (fun p => p <> []) filler_prefixes.
Proof. repeat constructor; discriminate. Qed.

Lemma strip_common_stuff_length (s : pystr) :
  (length (strip_common_stuff s)
   <= length (strip_first_prefix filler_prefixes s))%nat.
Proof.
  unfold strip_common_stuff.
  etransitivity; [apply strip_length | apply strip_each_suffix_length].
Qed.

(** The strip is not idempotent, because one pass removes one prefix and
    one suffix only. *)
Lemma strip_common_stuff_not_idempotent :
  strip_common_stuff (lit "me to me to pay rent") = lit "me to pay rent"
  /\ strip_common_stuff (strip_common_stuff (lit "me to me to pay rent"))
     = lit "pay rent"
  /\ strip_common_stuff (lit "in 2 hours from now from now")
     = lit "in 2 hours from now"
  /\ strip_common_stuff
       (strip_common_stuff (lit "in 2 hours from now from now"))
     = lit "in 2 hours"
  /\ ~ (forall s,
          strip_common_stuff (strip_common_stuff s) = strip_common_stuff s).
Proof.
  repeat split; try (vm_compute; reflexivity).
  intros H. specialize (H (lit "me to me to pay rent")).
  vm_compute in H. discriminate H.
Qed.

(** C7 (amended).  Running the strip again on its own output changes
    nothing exactly when that output neither begins with one of the four
    filler prefixes nor ends with "from now". *)
Theorem strip_common_stuff_fixed_point (s : pystr) :
  let t := strip_common_stuff s in
  strip_common_stuff t = t
  <-> has_filler_prefix t = false /\ has_filler_suffix t = false.
Proof.
  intros t. unfold has_filler_prefix, has_filler_suffix. split.
  - intros Hfix.
    destruct (existsb (startswith t) filler_prefixes) eqn:Hp.
    + pose proof (strip_first_prefix_shrinks t filler_prefixes_nonempty Hp).
      pose proof (strip_common_stuff_length t).
      rewrite Hfix in *. lia.
    + split; [reflexivity|].
      destruct (endswith t (lit "from now")) eqn:Hs; [|reflexivity].
      exfalso.
      assert (Hlt : (length (strip_common_stuff t) < length t)%nat).
      { unfold strip_common_stuff.
        rewrite (strip_first_prefix_absent _ _ Hp).
        cbn [strip_each_suffix]. rewrite Hs. pose proof (endswith_length _ _ Hs) as Hlen.
        eapply Nat.le_lt_trans; [apply strip_length|].
        rewrite slice_to_negative_length.
        - change (len (lit "from now")) with 8%Z.
          change (length (lit "from now")) with 8%nat in Hlen. lia.
        - change (len (lit "from now")) with 8%Z.
          change (length (lit "from now")) with 8%nat in Hlen.
          unfold len. lia. }
      rewrite Hfix in Hlt. lia.
  - intros [Hp Hs]. unfold strip_common_stuff at 1.
    rewrite (strip_first_prefix_absent _ _ Hp).
    cbn [strip_each_suffix]. rewrite Hs.
    apply strip_fixed; [apply strip_no_lead | apply strip_no_trail].
Qed.

End StripCommonStuff.

(* ===================================================================== *)
(** ** The temporal-phrase splitter                                      *)
(* ===================================================================== *)

Section Splitter.

Import Converters.

Variable w : World.

(** What [WhenAndWhatConverter.convert] does once the first candidate is
    known. *)
Lemma convert_selected (ctx : Context) (argument : pystr) (k k' : nat)
    (when : datetime) (begin end_ : Z) (rest : list Parsed) :
  let a := strip_common_stuff argument in
  ctx_duckling_key ctx = true ->
  DatetimeConverter_parse w a (DatetimeConverter_get_timezone ctx)
    (Some (ctx_created_at ctx)) k = (Ok ((when, begin, end_) :: rest), k') ->
  WhenAndWhatConverter_convert w ctx argument k =
    if (negb (begin =? 0) && negb (end_ =? len a))%Z
    then (Raise (BadArgument could_not_distinguish), k')
    else
      (Ok (when,
           or_ellipsis
             (strip_to
                (if (begin =? 0)%Z
                 then lstrip_chars (slice_from a (end_ + 1)) separators
                 else strip (slice_to a begin)))), k').
Proof.
  intros a Hkey Hparse. unfold WhenAndWhatConverter_convert, bind.
  rewrite Hkey. cbn [negb]. fold a. rewrite Hparse.
  destruct (negb (begin =? 0)%Z && negb (end_ =? len a)%Z); reflexivity.
Qed.

(** The same for [WhenAndWhatTransformer.transform]. *)
Lemma transform_selected (i : Interaction) (value : pystr) (k k' : nat)
    (when : datetime) (begin end_ : Z) (rest : list Parsed) :
  let a := strip_common_stuff value in
  int_duckling_key i = true ->
  WhenAndWhatTransformer_parse w a (WhenAndWhatTransformer_get_timezone i)
    (Some (int_created_at i)) k = (Ok ((when, begin, end_) :: rest), k') ->
  WhenAndWhatTransformer_transform w i value k =
    if (negb (begin =? 0) && negb (end_ =? len a))%Z
    then (Raise (BadDatetimeTransform could_not_distinguish), k')
    else (Ok when, k').
Proof.
  intros a Hkey Hparse. unfold WhenAndWhatTransformer_transform, bind.
  rewrite Hkey. cbn [negb]. fold a. rewrite Hparse.
  destruct (negb (begin =? 0)%Z && negb (end_ =? len a)%Z); reflexivity.
Qed.

(** After a span that starts at 0, the slice begins one character past
    the span's end. *)
Lemma convert_prefix_what (ctx : Context) (argument : pystr) (k k' : nat)
    (when : datetime) (end_ : Z) (rest : list Parsed) :
  let a := strip_common_stuff argument in
  ctx_duckling_key ctx = true ->
  DatetimeConverter_parse w a (DatetimeConverter_get_timezone ctx)
    (Some (ctx_created_at ctx)) k = (Ok ((when, 0%Z, end_) :: rest), k') ->
  WhenAndWhatConverter_convert w ctx argument k =
    (Ok (when,
         or_ellipsis
           (strip_to (lstrip_chars (slice_from a (end_ + 1)) separators))),
     k').
Proof.
  intros a Hkey Hparse.
  rewrite (convert_selected ctx argument k Hkey Hparse). reflexivity.
Qed.

Lemma skipn_nth_error (s : pystr) (n : nat) (c : char) :
  nth_error s n = Some c -> skipn n s = c :: skipn (S n) s.
Proof.
  revert n. induction s as [|x s IH]; intros [|n]; simpl; try discriminate.
  - now intros [= ->].
  - intros H. now apply IH.
Qed.

(** When the character at the span's end is itself a separator, slicing
    one character further loses nothing. *)
Lemma lstrip_after_separator (a : pystr) (end_ : Z) (c : char) :
  (0 <= end_ < len a)%Z ->
  nth_error a (Z.to_nat end_) = Some c ->
  mem_char c separators = true ->
  lstrip_chars (slice_from a (end_ + 1)) separators
  = lstrip_chars (slice_from a end_) separators.
Proof.
  intros Hend Hnth Hc. unfold slice_from, clip, len in *.
  destruct (Z.ltb_spec (end_ + 1) 0); [lia|].
  destruct (Z.ltb_spec end_ 0); [lia|].
  rewrite !Z.min_l by lia.
  replace (Z.to_nat (end_ + 1)) with (S (Z.to_nat end_)) by lia.
  rewrite (skipn_nth_error _ _ Hnth). unfold lstrip_chars.
  cbn [dropwhile]. now rewrite Hc.
Qed.

(** C1 (amended).  When the selected span is a strict prefix of the
    trimmed text and the character at the span's end offset is one of
    the stripped characters (space, comma, period, exclamation mark,
    colon, semicolon), the residual label is the text after the span's
    end offset with those leading characters stripped, then without a
    leading "to ", and the ellipsis if nothing is left. *)
Theorem prefix_span_residual (ctx : Context) (argument : pystr)
    (k k' : nat) (when : datetime) (end_ : Z) (rest : list Parsed)
    (c : char) :
  let a := strip_common_stuff argument in
  ctx_duckling_key ctx = true ->
  DatetimeConverter_parse w a (DatetimeConverter_get_timezone ctx)
    (Some (ctx_created_at ctx)) k = (Ok ((when, 0%Z, end_) :: rest), k') ->
  (0 <= end_ < len a)%Z ->
  nth_error a (Z.to_nat end_) = Some c ->
  mem_char c separators = true ->
  WhenAndWhatConverter_convert w ctx argument k =
    (Ok (when,
         or_ellipsis
           (strip_to (lstrip_chars (slice_from a end_) separators))),
     k').
Proof.
  intros a Hkey Hparse Hend Hnth Hc.
  rewrite (convert_prefix_what ctx argument k Hkey Hparse). fold a.
  now rewrite (lstrip_after_separator a Hend Hnth Hc).
Qed.

(** C3.  With a selected candidate whose span neither starts at 0 nor
    ends at the end of the trimmed text, the converter and the
    transformer fail with "Could not distinguish time from argument.";
    with a span that starts at 0 or ends at the end of the text they
    return a value, so they do not fail that way. *)
Theorem span_ambiguity (k k' : nat) (when : datetime) (begin end_ : Z)
    (rest : list Parsed) :
  (forall ctx argument,
      let a := strip_common_stuff argument in
      ctx_duckling_key ctx = true ->
      DatetimeConverter_parse w a (DatetimeConverter_get_timezone ctx)
        (Some (ctx_created_at ctx)) k
      = (Ok ((when, begin, end_) :: rest), k') ->
      (begin <> 0%Z /\ end_ <> len a ->
       WhenAndWhatConverter_convert w ctx argument k
       = (Raise (BadArgument could_not_distinguish), k'))
      /\ (begin = 0%Z \/ end_ = len a ->
          exists what,
            WhenAndWhatConverter_convert w ctx argument k
            = (Ok (when, what), k')))
  /\ (forall i value,
         let a := strip_common_stuff value in
         int_duckling_key i = true ->
         WhenAndWhatTransformer_parse w a
           (WhenAndWhatTransformer_get_timezone i)
           (Some (int_created_at i)) k
         = (Ok ((when, begin, end_) :: rest), k') ->
         (begin <> 0%Z /\ end_ <> len a ->
          WhenAndWhatTransformer_transform w i value k
          = (Raise (BadDatetimeTransform could_not_distinguish), k'))
         /\ (begin = 0%Z \/ end_ = len a ->
             WhenAndWhatTransformer_transform w i value k
             = (Ok when, k'))).
Proof.
  split.
  - intros ctx argument a Hkey Hparse.
    rewrite (convert_selected ctx argument k Hkey Hparse). fold a. split.
    + intros [Hb He].
      apply Z.eqb_neq in Hb, He. now rewrite Hb, He.
    + intros [Hb | He].
      * rewrite Hb. eexists. reflexivity.
      * rewrite He, Z.eqb_refl, andb_false_r. eexists. reflexivity.
  - intros i value a Hkey Hparse.
    rewrite (transform_selected i value k Hkey Hparse). fold a. split.
    + intros [Hb He].
      apply Z.eqb_neq in Hb, He. now rewrite Hb, He.
    + intros [Hb | He].
      * rewrite Hb. reflexivity.
      * rewrite He, Z.eqb_refl, andb_false_r. reflexivity.
Qed.

Lemma or_ellipsis_nonempty (what : pystr) : or_ellipsis what <> [].
Proof. destruct what; discriminate. Qed.

(** C4.  When the selected span covers the whole trimmed text, the
    residual label is the ellipsis; and whenever the converter returns,
    the label it returns is not the empty string. *)
Theorem full_span_gives_ellipsis (ctx : Context) (argument : pystr)
    (k : nat) :
  let a := strip_common_stuff argument in
  (forall k' when end_ rest,
      ctx_duckling_key ctx = true ->
      DatetimeConverter_parse w a (DatetimeConverter_get_timezone ctx)
        (Some (ctx_created_at ctx)) k
      = (Ok ((when, 0%Z, end_) :: rest), k') ->
      end_ = len a ->
      WhenAndWhatConverter_convert w ctx argument k
      = (Ok (when, ellipsis), k'))
  /\ (forall k' when what,
         WhenAndWhatConverter_convert w ctx argument k
         = (Ok (when, what), k') ->
         what <> []).
Proof.
  intros a. split.
  - intros k' when end_ rest Hkey Hparse ->.
    rewrite (convert_prefix_what ctx argument k Hkey Hparse). fold a.
    replace (slice_from a (len a + 1)) with (@nil char); [reflexivity|].
    unfold slice_from, clip, len.
    destruct (Z.ltb_spec (Z.of_nat (length a) + 1) 0); [lia|].
    rewrite Z.min_r by lia. rewrite Nat2Z.id.
    symmetry. apply skipn_all.
  - intros k' when what. unfold WhenAndWhatConverter_convert, bind.
    fold a.
    destruct (negb (ctx_duckling_key ctx)); [discriminate|].
    destruct (DatetimeConverter_parse w a _ _ k) as [[l|e] k1];
      [|discriminate].
    destruct l as [|[[t b] e] l]; [discriminate|].
    destruct (negb (b =? 0)%Z && negb (e =? len a)%Z); [discriminate|].
    intros [= _ <- _]. apply or_ellipsis_nonempty.
Qed.

(** [parse] lets through only what [fromisoformat] and the date
    arithmetic raise. *)
Lemma parse_loop_raises (data : list DucklingResponse) :
  forall (times : list Parsed) (k k' : nat) (e : exn),
    parse_loop w data times k = (Raise e, k') ->
    e = ValueError \/ e = OverflowError.
Proof.
  induction data as [|t data IH]; intros times k k' e; cbn [parse_loop].
  - discriminate.
  - destruct (dim t).
    + unfold bind, datetime_now, lift, timedelta_seconds, datetime_add.
      destruct (Z.abs (normalized_value t / 86400) <=? 999999999)%Z;
        [|intros [= <- _]; now right].
      destruct ((datetime_min <=? _) && (_ <=? datetime_max))%Z;
        [|intros [= <- _]; now right].
      apply IH.
    + destruct (value_value t) as [v|]; [|apply IH].
      destruct (fromisoformat w v); [apply IH|].
      intros [= <- _]. now left.
Qed.

Lemma parse_raises (argument timezone : pystr) (now : option datetime)
    (k k' : nat) (e : exn) :
  DatetimeConverter_parse w argument timezone now k = (Raise e, k') ->
  e = ValueError \/ e = OverflowError.
Proof.
  unfold DatetimeConverter_parse, bind.
  destruct now as [t|]; cbn; apply parse_loop_raises.
Qed.

Lemma transformer_timezone (i : Interaction) :
  WhenAndWhatTransformer_get_timezone i
  = DatetimeConverter_get_timezone (context_of i).
Proof.
  unfold WhenAndWhatTransformer_get_timezone, DatetimeConverter_get_timezone,
    context_of.
  cbn [ctx_tz_row]. now destruct (int_guild i).
Qed.

(** C9.  The slash-command transformer returns the timestamp alone: on
    every input its result is the first component of what the
    prefix-command converter returns on the same input (with the
    slash-command error class in place of [BadArgument]); the label,
    with its "to " strip and its ellipsis fallback, exists only in the
    converter's pair. *)
Theorem transform_is_when_of_convert (i : Interaction) (value : pystr)
    (k : nat) :
  WhenAndWhatTransformer_transform w i value k
  = (result_map fst as_transform_error
       (fst (WhenAndWhatConverter_convert w (context_of i) value k)),
     snd (WhenAndWhatConverter_convert w (context_of i) value k)).
Proof.
  unfold WhenAndWhatTransformer_transform, WhenAndWhatConverter_convert,
    WhenAndWhatTransformer_parse, bind.
  rewrite transformer_timezone.
  change (ctx_duckling_key (context_of i)) with (int_duckling_key i).
  change (ctx_created_at (context_of i)) with (int_created_at i).
  destruct (negb (int_duckling_key i)); [reflexivity|].
  destruct (DatetimeConverter_parse w (strip_common_stuff value) _ _ k)
    as [[l|e] k1] eqn:Hparse.
  2: { apply parse_raises in Hparse. now destruct Hparse as [-> | ->]. }
  destruct l as [|[[t b] e] l]; [reflexivity|].
  destruct (negb (b =? 0)%Z && negb (e =? len (strip_common_stuff value))%Z);
    reflexivity.
Qed.

(** The reference time handed to [parse] has no effect on its result. *)
Lemma parse_ignores_now (argument timezone : pystr) (now now' : datetime)
    (k : nat) :
  DatetimeConverter_parse w argument timezone (Some now) k
  = DatetimeConverter_parse w argument timezone (Some now') k.
Proof. reflexivity. Qed.

(** A lone duration candidate is resolved from the clock reading taken
    inside the loop, whatever reference time was handed in. *)
Lemma parse_single_duration (argument timezone : pystr) (now : datetime)
    (k : nat) (t : DucklingResponse) (delta : Z) (r : datetime) :
  duckling w timezone argument = [t] ->
  dim t = duration ->
  timedelta_seconds (normalized_value t) = Ok delta ->
  datetime_add (clock w k) delta = Ok r ->
  DatetimeConverter_parse w argument timezone (Some now) k
  = (Ok [(r, start t, end_ t)], S k).
Proof.
  intros Hdata Hdim Hdelta Hadd.
  unfold DatetimeConverter_parse, bind, ret. rewrite Hdata.
  cbn [parse_loop]. rewrite Hdim.
  unfold bind, datetime_now, lift, ret. now rewrite Hdelta, Hadd.
Qed.

End Splitter.

(* ===================================================================== *)
(** ** The splitter on sample inputs                                     *)
(* ===================================================================== *)

Section SplitterSamples.

Import Converters Samples.

Lemma prefix_span_residual_witness :
  WhenAndWhatConverter_convert sample_world sample_ctx
    (lit "in 2 hours, to buy milk") 0
  = (Ok (1700007200000000%Z, lit "buy milk"), 1%nat).
Proof.
  refine (@prefix_span_residual sample_world sample_ctx
            (lit "in 2 hours, to buy milk") 0%nat 1%nat
            1700007200000000%Z 10%Z [] 44%N _ _ _ _ _).
  - reflexivity.
  - reflexivity.
  - vm_compute. split; [discriminate | reflexivity].
  - reflexivity.
  - reflexivity.
Defined.

(** The label differs from the listed strip of the text after the span:
    a leading "to " is removed as well. *)
Lemma prefix_span_residual_counterexample :
  ~ (forall (w : World) (ctx : Context) (argument : pystr) (k k' : nat)
            (when : datetime) (end_ : Z) (rest : list Parsed)
            (what : pystr),
        let a := strip_common_stuff argument in
        ctx_duckling_key ctx = true ->
        DatetimeConverter_parse w a (DatetimeConverter_get_timezone ctx)
          (Some (ctx_created_at ctx)) k
        = (Ok ((when, 0%Z, end_) :: rest), k') ->
        (0 <= end_ < len a)%Z ->
        WhenAndWhatConverter_convert w ctx argument k
        = (Ok (when, what), k') ->
        what = lstrip_chars (slice_from a end_) listed_separators).
Proof.
  intros H.
  specialize (H sample_world sample_ctx (lit "in 2 hours to buy milk")
                0%nat 1%nat 1700007200000000%Z 10%Z [] (lit "buy milk")
                eq_refl eq_refl).
  assert (Hlen : (0 <= 10 < len (strip_common_stuff
                                   (lit "in 2 hours to buy milk")))%Z)
    by (vm_compute; split; [discriminate | reflexivity]).
  specialize (H Hlen eq_refl). vm_compute in H. discriminate H.
Qed.

(** Three ways in which the label is not the listed strip of the text
    after the span: the "to " strip, the ellipsis, the exclamation
    mark. *)
Example prefix_span_deviations :
  (fst (WhenAndWhatConverter_convert sample_world sample_ctx
          (lit "in 2 hours to buy milk") 0)
   = Ok (1700007200000000%Z, lit "buy milk")
   /\ lstrip_chars (slice_from (lit "in 2 hours to buy milk") 10)
        listed_separators = lit "to buy milk")
  /\ (fst (WhenAndWhatConverter_convert sample_world sample_ctx
             (lit "in 2 hours.") 0)
      = Ok (1700007200000000%Z, ellipsis)
      /\ lstrip_chars (slice_from (lit "in 2 hours.") 10)
           listed_separators = [])
  /\ (fst (WhenAndWhatConverter_convert sample_world sample_ctx
             (lit "tomorrow !go") 0)
      = Ok (1700006400000000%Z, lit "go")
      /\ lstrip_chars (slice_from (lit "tomorrow !go") 8)
           listed_separators = lit "!go").
Proof. repeat split; vm_compute; reflexivity. Qed.

(** The slice starts one character past the span's end, so a character
    there that is not a separator is lost. *)
Example prefix_span_drops_one_character :
  fst (WhenAndWhatConverter_convert sample_world sample_ctx
         (lit "in 2 hours-buy milk") 0)
  = Ok (1700007200000000%Z, lit "buy milk").
Proof. vm_compute. reflexivity. Qed.

Lemma span_ambiguity_witness :
  WhenAndWhatConverter_convert sample_world sample_ctx
    (lit "buy milk in 2 hours please") 0
  = (Raise (BadArgument could_not_distinguish), 1%nat).
Proof.
  refine (proj1 (proj1 (@span_ambiguity sample_world 0%nat 1%nat
                          1700007200000000%Z 9%Z 19%Z [])
                   sample_ctx (lit "buy milk in 2 hours please")
                   eq_refl eq_refl) _).
  vm_compute. split; discriminate.
Defined.

Lemma full_span_gives_ellipsis_witness :
  WhenAndWhatConverter_convert sample_world sample_ctx
    (lit "in 2 hours from now") 0
  = (Ok (1700007200000000%Z, ellipsis), 1%nat).
Proof.
  refine (proj1 (@full_span_gives_ellipsis sample_world sample_ctx
                   (lit "in 2 hours from now") 0%nat)
            1%nat 1700007200000000%Z 10%Z [] eq_refl eq_refl eq_refl).
Defined.

(** The suffix case of the example in the specification. *)
Example remind_me_to_buy_milk :
  fst (WhenAndWhatConverter_convert sample_world sample_ctx
         (lit "me to buy milk in 2 hours") 0)
  = Ok (1700007200000000%Z, lit "buy milk").
Proof. vm_compute. reflexivity. Qed.

(** C2.  A duration candidate is resolved from the clock read inside
    [parse], not from the reference time handed to it: with the
    reference ten seconds before the clock, the result is the clock's
    reading plus two hours. *)
Theorem duration_resolved_from_clock_not_now :
  let now := ctx_created_at sample_ctx in
  DatetimeConverter_parse sample_world (lit "in 2 hours") (lit "UTC")
    (Some now) 0
  = (Ok [((clock sample_world 0 + 7200 * 1000000)%Z, 0%Z, 10%Z)], 1%nat)
  /\ (clock sample_world 0 + 7200 * 1000000)%Z
     <> (now + 7200 * 1000000)%Z.
Proof. split; [vm_compute; reflexivity | vm_compute; discriminate]. Qed.

End SplitterSamples.

(* ===================================================================== *)
(** ** Paste-id extraction                                               *)
(* ===================================================================== *)

Section PasteId.

Import Converters.

Variable db : UnicodeDB.

Lemma re_class_passes_on (p : char -> bool) : passes_on (re_class p).
Proof.
  intros [|c s] g k m; cbn; [discriminate|].
  destruct (p c); [|discriminate].
  intros H. now exists s, [].
Qed.

Lemma re_empty_passes_on : passes_on re_empty.
Proof. intros s g k m H. now exists s, []. Qed.

Lemma re_seq_passes_on (r1 r2 : Regex) :
  passes_on r1 -> passes_on r2 -> passes_on (re_seq r1 r2).
Proof.
  intros H1 H2 s g k m H. unfold re_seq in H.
  apply H1 in H. destruct H as (s1 & l1 & H).
  apply H2 in H. destruct H as (s2 & l2 & H).
  exists s2, (l2 ++ l1). now rewrite <- app_assoc.
Qed.

Lemma re_lit_passes_on (l : string) : passes_on (re_lit l).
Proof.
  unfold re_lit. induction (lit l) as [|c cs IH]; cbn [fold_right].
  - apply re_empty_passes_on.
  - apply re_seq_passes_on; [apply re_class_passes_on | exact IH].
Qed.

Lemma re_opt_passes_on (r : Regex) : passes_on r -> passes_on (re_opt r).
Proof.
  intros Hr s g k m. unfold re_opt.
  destruct (r s g k) as [m'|] eqn:E.
  - intros [= <-]. now apply Hr in E.
  - intros H. now exists s, [].
Qed.

Lemma re_star_fuel_passes_on (r : Regex) (fuel : nat) :
  passes_on r -> passes_on (re_star_fuel fuel r).
Proof.
  intros Hr. induction fuel as [|fuel IH]; intros s g k m;
    cbn [re_star_fuel].
  - intros H. now exists s, [].
  - match goal with
    | |- match ?x with _ => _ end = _ -> _ => destruct x as [m'|] eqn:E
    end.
    + intros [= <-]. apply Hr in E. destruct E as (s1 & l1 & E).
      destruct (length s1 <? length s)%nat; [|discriminate].
      apply IH in E. destruct E as (s2 & l2 & E).
      exists s2, (l2 ++ l1). now rewrite <- app_assoc.
    + intros H. now exists s, [].
Qed.

Lemma re_star_passes_on (r : Regex) : passes_on r -> passes_on (re_star r).
Proof. intros Hr s g k m. apply re_star_fuel_passes_on, Hr. Qed.

Lemma re_char_passes_on (c : char) : passes_on (re_char c).
Proof. apply re_class_passes_on. Qed.

Lemma re_range_passes_on (lo hi : ascii) : passes_on (re_range lo hi).
Proof. apply re_class_passes_on. Qed.

Lemma re_plus_passes_on (r : Regex) : passes_on r -> passes_on (re_plus r).
Proof.
  intros Hr. apply re_seq_passes_on; [exact Hr | now apply re_star_passes_on].
Qed.

Lemma re_group_passes_on (name : string) (r : Regex) :
  passes_on r -> passes_on (re_group name r).
Proof.
  intros Hr s g k m H. unfold re_group in H.
  apply Hr in H. destruct H as (s1 & l1 & H).
  now exists s1, ((name, firstn (length s - length s1) s) :: l1).
Qed.

Lemma re_opt_always (r : Regex) : always_matches (re_opt r).
Proof.
  intros k Hk s g. unfold re_opt. destruct (r s g k); [discriminate|].
  apply Hk.
Qed.

Lemma re_star_always (r : Regex) : always_matches (re_star r).
Proof.
  intros k Hk s g. unfold re_star.
  destruct (length s) as [|fuel]; cbn [re_star_fuel]; [apply Hk|].
  match goal with
  | |- match ?x with _ => _ end <> _ => destruct x
  end; [discriminate | apply Hk].
Qed.

Lemma re_group_always (name : string) (r : Regex) :
  always_matches r -> always_matches (re_group name r).
Proof.
  intros Hr k Hk s g. unfold re_group. apply Hr.
  intros s' g'. apply Hk.
Qed.

Lemma re_seq_always (r1 r2 : Regex) :
  always_matches r1 -> always_matches r2 -> always_matches (re_seq r1 r2).
Proof.
  intros H1 H2 k Hk s g. unfold re_seq. apply H1.
  intros s' g'. now apply H2.
Qed.

(** Every part of [MYSTBIN_REGEX] is optional or a repetition from
    zero. *)
Lemma MYSTBIN_REGEX_always : always_matches (MYSTBIN_REGEX db).
Proof.
  unfold MYSTBIN_REGEX.
  repeat first
    [ apply re_seq_always | apply re_opt_always
    | apply re_group_always | apply re_star_always ].
Qed.

(** So [search] finds a match in every text. *)
Lemma MYSTBIN_REGEX_search_total (argument : pystr) :
  re_search (MYSTBIN_REGEX db) argument <> None.
Proof.
  assert (H : re_match (MYSTBIN_REGEX db) argument <> None).
  { apply MYSTBIN_REGEX_always. intros s g. discriminate. }
  destruct argument; cbn [re_search];
    destruct (re_match (MYSTBIN_REGEX db) _); congruence.
Qed.

Lemma re_search_is_match (r : Regex) (s : pystr) (m : Match) :
  re_search r s = Some m -> exists s', re_match r s' = Some m.
Proof.
  induction s as [|c s IH]; cbn [re_search].
  - destruct (re_match r []) eqn:E; [|discriminate].
    intros [= <-]. now exists [].
  - destruct (re_match r (c :: s)) eqn:E.
    + intros [= <-]. now exists (c :: s).
    + exact IH.
Qed.

Lemma group_get_present (name : string) (v : pystr) (l g : Groups) :
  group_get name (l ++ (name, v) :: g) <> None.
Proof.
  induction l as [|[n x] l IH]; cbn [group_get app].
  - now rewrite String.eqb_refl.
  - destruct (String.eqb n name); [discriminate | exact IH].
Qed.

(** The group [id] takes part in every match. *)
Lemma MYSTBIN_REGEX_id_present (s : pystr) (m : Match) :
  re_match (MYSTBIN_REGEX db) s = Some m ->
  group_get "id" (snd m) <> None.
Proof.
  unfold re_match, MYSTBIN_REGEX. intros H.
  unfold re_seq at 1 in H.
  match type of H with
  | re_opt ?P _ _ _ = _ =>
      assert (HP : passes_on (re_opt P))
  end.
  { repeat first
      [ apply re_lit_passes_on | apply re_char_passes_on
      | apply re_opt_passes_on | apply re_seq_passes_on ]. }
  apply HP in H. destruct H as (s1 & l1 & H).
  unfold re_seq at 1, re_group at 1 in H.
  match type of H with
  | re_star ?X _ _ _ = _ => assert (HX : passes_on (re_star X))
  end.
  { apply re_star_passes_on, re_seq_passes_on;
      [apply re_range_passes_on | apply re_plus_passes_on, re_range_passes_on]. }
  apply HX in H. destruct H as (s2 & l2 & H).
  match type of H with
  | re_opt ?E _ _ _ = _ => assert (HE : passes_on (re_opt E))
  end.
  { apply re_opt_passes_on, re_group_passes_on, re_seq_passes_on;
      [apply re_char_passes_on | apply re_plus_passes_on, re_class_passes_on]. }
  apply HE in H. destruct H as (s3 & l3 & [= <-]).
  apply group_get_present.
Qed.

(** The converter never reaches its [raise]: it returns the [id] group
    of the first match, which may be empty. *)
Lemma MystbinPasteConverter_convert_returns (argument : pystr) :
  exists id_, MystbinPasteConverter_convert db argument = Ok (Some id_).
Proof.
  unfold MystbinPasteConverter_convert.
  destruct (re_search (MYSTBIN_REGEX db) argument) as [[rest groups]|] eqn:E.
  - apply re_search_is_match in E. destruct E as (s' & E).
    apply MYSTBIN_REGEX_id_present in E. cbn [snd] in E.
    destruct (group_get "id" groups) as [v|]; [now exists v | congruence].
  - now apply MYSTBIN_REGEX_search_total in E.
Qed.

(** C8.  The converter does not fail on a text without a paste
    identifier: on every text it returns the [id] group of the match at
    the first offset where the pattern matches, and since the pattern
    matches the empty string that is offset 0, so the raise of "No Mystbin
    IDs found in this text." is never reached.  A text with no identifier
    ("hello world") and a text with a paste link further on both give the
    empty identifier; an identifier is returned only when it stands at the
    start of the text. *)
Theorem paste_id_extraction_never_fails (argument : pystr) :
  (exists id_, MystbinPasteConverter_convert db argument = Ok (Some id_))
  /\ MystbinPasteConverter_convert db argument
     <> Raise (ConversionError no_mystbin_ids)
  /\ MystbinPasteConverter_convert db (lit "hello world") = Ok (Some [])
  /\ MystbinPasteConverter_convert db
       (lit "see https://mystb.in/FooBarBaz for the code")
     = Ok (Some [])
  /\ MystbinPasteConverter_convert db
       (lit "https://mystb.in/FooBarBaz for the code")
     = Ok (Some (lit "FooBarBaz")).
Proof.
  destruct (MystbinPasteConverter_convert_returns argument) as [id_ Hid].
  split; [now exists id_|]. split; [rewrite Hid; discriminate|].
  repeat split; vm_compute; reflexivity.
Qed.

End PasteId.

(* ===================================================================== *)
(** ** The pagination view                                               *)
(* ===================================================================== *)

Section Pagination.

Import Paginator.

Variables Page Embed : Type.

Local Abbreviation View := (RoboPages Page Embed).
Local Abbreviation Inter := (Interaction Embed).

Lemma update_labels_current_page (v : View) (n : Z) :
  current_page (_update_labels v n) = current_page v.
Proof.
  unfold _update_labels.
  destruct (compact v); [reflexivity|].
  destruct (get_max_pages (source v)); reflexivity.
Qed.

Lemma show_page_refused (v : View) (i : Inter) (n : Z) (e : exn) :
  get_page (source v) n = Raise e -> show_page v i n = (v, i, Some e).
Proof. intros H. unfold show_page. now rewrite H. Qed.

(** [show_page] assigns [current_page] as soon as the source has
    returned the page. *)
Lemma show_page_current_page (v : View) (i : Inter) (n : Z) (p : Page) :
  get_page (source v) n = Ok p ->
  current_page (view_of (show_page v i n)) = n.
Proof.
  intros H. unfold show_page. rewrite H.
  destruct (_get_kwargs_from_page (set_current_page v n) p) as [kw|e];
    [|reflexivity].
  destruct kw as [|x kw]; [apply update_labels_current_page|].
  destruct (is_done i); [|apply update_labels_current_page].
  destruct (message _); apply update_labels_current_page.
Qed.

(** Swallowing [IndexError] leaves the view and the interaction as
    [show_page] left them. *)
Lemma show_checked_page_view (v : View) (i : Inter) (n : Z) :
  view_of (show_checked_page v i n)
  = match get_max_pages (source v) with
    | None => view_of (show_page v i n)
    | Some m =>
        if ((m >? n) && (n >=? 0))%Z then view_of (show_page v i n) else v
    end.
Proof.
  unfold show_checked_page.
  destruct (get_max_pages (source v)) as [m|].
  - destruct ((m >? n) && (n >=? 0))%Z; [|reflexivity].
    destruct (show_page v i n) as [[v' i'] [e|]]; [|reflexivity].
    destruct e; reflexivity.
  - destruct (show_page v i n) as [[v' i'] [e|]]; [|reflexivity].
    destruct e; reflexivity.
Qed.

Lemma show_checked_page_out_of_range (v : View) (i : Inter) (n m : Z) :
  get_max_pages (source v) = Some m ->
  (n < 0 \/ m <= n)%Z ->
  show_checked_page v i n = (v, i, None).
Proof.
  intros Hm Hn. unfold show_checked_page. rewrite Hm.
  replace ((m >? n) && (n >=? 0))%Z with false; [reflexivity|].
  symmetry. apply andb_false_iff. rewrite Z.geb_leb, Z.gtb_ltb.
  destruct Hn; [right; apply Z.leb_gt; lia | left; apply Z.ltb_ge; lia].
Qed.

(** C5 (amended).  With a known number of pages, [go_to_previous] at
    page 0 and [go_to_next] at the last page change nothing.  With an
    unknown number of pages the request is not checked: [go_to_previous]
    at page 0 asks the source for page -1; the view is unchanged when
    the source refuses that page, and [current_page] becomes -1 when the
    source returns one. *)
Theorem boundary_navigation (v : View) (i : Inter) :
  (forall m,
      get_max_pages (source v) = Some m ->
      (current_page v = 0%Z -> go_to_previous_page v i = (v, i, None))
      /\ (current_page v = (m - 1)%Z -> go_to_next_page v i = (v, i, None)))
  /\ (get_max_pages (source v) = None ->
      current_page v = 0%Z ->
      (forall e,
          get_page (source v) (-1) = Raise e ->
          view_of (go_to_previous_page v i) = v)
      /\ (forall p,
             get_page (source v) (-1) = Ok p ->
             current_page (view_of (go_to_previous_page v i)) = (-1)%Z)).
Proof.
  split.
  - intros m Hm. split; intros Hcur.
    + unfold go_to_previous_page. rewrite Hcur.
      apply (show_checked_page_out_of_range v i (n:=0 - 1) Hm). lia.
    + unfold go_to_next_page. rewrite Hcur.
      apply (show_checked_page_out_of_range v i (n:=m - 1 + 1) Hm). lia.
  - intros Hm Hcur. unfold go_to_previous_page.
    rewrite Hcur, show_checked_page_view, Hm. cbn.
    split.
    + intros e He. now rewrite (show_page_refused v i _ He).
    + intros p Hp. now apply show_page_current_page with (p := p).
Qed.

End Pagination.

(* ===================================================================== *)
(** ** Jump to a page                                                    *)
(* ===================================================================== *)

Section PlaceholderText.

Lemma lit_not_capital_E (u : Decimal.uint) :
  Forall (fun c => c <> 69%N) (lit (NilEmpty.string_of_uint u)).
Proof.
  induction u; cbn; constructor; try discriminate; assumption.
Qed.

(** The decimal text of a number has no capital E in it. *)
Lemma str_of_int_not_capital_E (m : Z) :
  Forall (fun c => c <> 69%N) (str_of_int m).
Proof.
  unfold str_of_int. destruct (Z.to_int m) as [u|u]; cbn.
  - apply lit_not_capital_E.
  - constructor; [discriminate | apply lit_not_capital_E].
Qed.

Lemma replace_go_no_match (old new s : pystr) :
  Forall (fun c => c <> 69%N) s ->
  replace_go (69%N :: old) new 0 s = s.
Proof.
  induction 1 as [|c s Hc _ IH]; cbn [replace_go]; [reflexivity|].
  cbn [startswith]. apply N.eqb_neq in Hc. rewrite Hc. cbn.
  now rewrite IH.
Qed.

(** [placeholder.replace("Enter", "Expected")] on the placeholder of a
    modal that knows the number of pages. *)
Lemma placeholder_replaced (m : Z) :
  replace
    (Paginator.placeholder (Paginator.NumberedPageModal_init (Some m)))
    (lit "Enter") (lit "Expected")
  = expected_between m.
Proof.
  unfold expected_between. cbn [Paginator.NumberedPageModal_init Paginator.placeholder].
  pose proof (str_of_int_not_capital_E m) as H.
  generalize dependent (str_of_int m). intros t Ht.
  unfold replace. cbn.
  change (69%N :: 110%N :: 116%N :: 101%N :: [114%N])
    with (69%N :: lit "nter").
  now rewrite replace_go_no_match.
Qed.

End PlaceholderText.

Section PageJump.

Import Paginator.

Variables Page Embed : Type.
Variable db : UnicodeDB.

Local Abbreviation View := (RoboPages Page Embed).
Local Abbreviation Inter := (Interaction Embed).

Lemma isdigit_3 : isdigit db (lit "3") = true.
Proof.
  cbn. rewrite (@ascii_isdigit db 51%N); [reflexivity | lia].
Qed.

Lemma int_of_digits_3 : int_of_digits db (lit "3") = Ok 3%Z.
Proof.
  unfold int_of_digits. cbn.
  rewrite (@ascii_todecimal db 51%N); [reflexivity | lia].
Qed.

(** In the active state, with a value that [isdigit] accepts and [int]
    converts, [numbered_page] leaves the view [show_checked_page]
    leaves. *)
Lemma numbered_page_view (v : View) (i : Inter) (value : pystr) (n : Z) :
  message v = true ->
  is_finished v = false ->
  isdigit db value = true ->
  int_of_digits db value = Ok n ->
  jump_view (numbered_page db v i (Submitted value))
  = view_of (show_checked_page v (fresh_interaction Embed) (n - 1)).
Proof.
  intros Hmsg Hfin Hdig Hint. unfold numbered_page.
  rewrite Hmsg, Hfin, Hdig, Hint. cbn [negb].
  destruct (show_checked_page v (fresh_interaction Embed) (n - 1))
    as [[v' mi'] [e|]]; [reflexivity|].
  destruct (negb (is_done mi')); reflexivity.
Qed.

(** C6.  In the active state, the input "3" on a source of ten pages
    that supplies page 2 moves the view to index 2; an input that
    [isdigit] rejects is answered with "Expected a number not ..." on
    the modal's interaction and the view is unchanged. *)
Theorem jump_to_page (v : View) (i : Inter) :
  message v = true ->
  is_finished v = false ->
  (forall p,
      get_max_pages (source v) = Some 10%Z ->
      get_page (source v) 2 = Ok p ->
      current_page (jump_view (numbered_page db v i (Submitted (lit "3"))))
      = 2%Z)
  /\ (forall value,
         isdigit db value = false ->
         numbered_page db v i (Submitted value)
         = {| jump_view := v;
              jump_interaction :=
                respond i
                  (SendModal Embed
                     (NumberedPageModal_init (get_max_pages (source v))));
              jump_modal_interaction :=
                Some (respond (fresh_interaction Embed)
                        (SendMessage Embed (ExpectedNumberNot value) true));
              jump_raised := None |}).
Proof.
  intros Hmsg Hfin. split.
  - intros p Hmax Hpage.
    rewrite (@numbered_page_view v i (lit "3") 3%Z Hmsg Hfin
               isdigit_3 int_of_digits_3).
    rewrite show_checked_page_view, Hmax. cbn.
    now apply show_page_current_page with (p := p).
  - intros value Hdig. unfold numbered_page.
    now rewrite Hmsg, Hfin, Hdig.
Qed.

(** C10.  In the active state, with a known number of pages [m], an
    all-digits input whose number [n] is 0 or more than [m] leaves the
    view unchanged and is answered, on the modal's interaction, with
    "Expected a number between 1 and m". *)
Theorem jump_out_of_range (v : View) (i : Inter) (value : pystr)
    (n m : Z) :
  message v = true ->
  is_finished v = false ->
  get_max_pages (source v) = Some m ->
  isdigit db value = true ->
  int_of_digits db value = Ok n ->
  (n - 1 >= m \/ n = 0)%Z ->
  numbered_page db v i (Submitted value)
  = {| jump_view := v;
       jump_interaction :=
         respond i (SendModal Embed (NumberedPageModal_init (Some m)));
       jump_modal_interaction :=
         Some (respond (fresh_interaction Embed)
                 (SendMessage Embed (Plain (expected_between m)) true));
       jump_raised := None |}.
Proof.
  intros Hmsg Hfin Hmax Hdig Hint Hout. unfold numbered_page.
  rewrite Hmsg, Hfin, Hdig, Hint. cbn [negb].
  rewrite (show_checked_page_out_of_range v (fresh_interaction Embed)
             (n:=n - 1) Hmax) by lia.
  cbn [fresh_interaction is_done negb]. rewrite Hmax.
  now rewrite placeholder_replaced.
Qed.

End PageJump.

(* ===================================================================== *)
(** ** The pagination view on sample sources                             *)
(* ===================================================================== *)

Section PageSamples.

Import Paginator PageSamples.

Lemma boundary_navigation_witness :
  go_to_previous_page (started ten_pages) (fresh_interaction unit)
  = (started ten_pages, fresh_interaction unit, None).
Proof.
  exact (proj1 (proj1 (boundary_navigation (started ten_pages)
                         (fresh_interaction unit)) 10%Z eq_refl) eq_refl).
Defined.

(** A source that reports no page count and answers page -1 takes the
    view from page 0 to page -1. *)
Lemma boundary_navigation_counterexample :
  ~ (forall (Page Embed : Type) (v : RoboPages Page Embed)
            (i : Interaction Embed),
        current_page v = 0%Z ->
        current_page (view_of (go_to_previous_page v i)) = 0%Z).
Proof.
  intros H.
  specialize (H pystr unit (started endless_source)
                (fresh_interaction unit) eq_refl).
  vm_compute in H. discriminate H.
Qed.

Example previous_on_endless_source :
  current_page
    (view_of (go_to_previous_page (started endless_source)
                (fresh_interaction unit)))
  = (-1)%Z.
Proof. vm_compute. reflexivity. Qed.

(** A list source answers page -1 with its last entry, as a Python list
    does; only the check against the page count keeps the view at
    page 0. *)
Example list_source_minus_one :
  get_page ten_pages (-1) = Ok (lit "j").
Proof. vm_compute. reflexivity. Qed.

Lemma jump_to_page_witness :
  current_page
    (jump_view (numbered_page ascii_db (started ten_pages)
                  (fresh_interaction unit) (Submitted (lit "3"))))
  = 2%Z
  /\ jump_modal_interaction
       (numbered_page ascii_db (started ten_pages)
          (fresh_interaction unit) (Submitted (lit "three")))
     = Some (respond (fresh_interaction unit)
               (SendMessage unit (ExpectedNumberNot (lit "three")) true)).
Proof.
  pose proof (@jump_to_page pystr unit ascii_db (started ten_pages)
                (fresh_interaction unit) eq_refl eq_refl) as [H3 Hbad].
  split.
  - exact (H3 (lit "c") eq_refl eq_refl).
  - rewrite (Hbad (lit "three") eq_refl). reflexivity.
Defined.

Lemma jump_out_of_range_witness :
  numbered_page ascii_db (started ten_pages) (fresh_interaction unit)
    (Submitted (lit "11"))
  = {| jump_view := started ten_pages;
       jump_interaction :=
         respond (fresh_interaction unit)
           (SendModal unit (NumberedPageModal_init (Some 10%Z)));
       jump_modal_interaction :=
         Some (respond (fresh_interaction unit)
                 (SendMessage unit
                    (Plain (lit "Expected a number between 1 and 10"))
                    true));
       jump_raised := None |}.
Proof.
  refine (@jump_out_of_range pystr unit ascii_db (started ten_pages)
            (fresh_interaction unit) (lit "11") 11%Z 10%Z
            eq_refl eq_refl eq_refl eq_refl eq_refl _).
  left. vm_compute. discriminate.
Defined.

(** The same answer for the input "0". *)
Example jump_to_zero :
  jump_modal_interaction
    (numbered_page ascii_db (started ten_pages) (fresh_interaction unit)
       (Submitted (lit "0")))
  = Some (respond (fresh_interaction unit)
            (SendMessage unit
               (Plain (lit "Expected a number between 1 and 10")) true)).
Proof. vm_compute. reflexivity. Qed.

End PageSamples.


(* ===================================================================== *)
(** ** More on the splitter and on [parse]                               *)
(* ===================================================================== *)

Section ParseFacts.

Import Converters.

Variable w : World.

(** The loop over a response in two parts is the loop over the first part
    followed by the loop over the second. *)
Lemma parse_loop_app (a b : list DucklingResponse) :
  forall (times : list Parsed) (k : nat),
    parse_loop w (a ++ b) times k
    = match parse_loop w a times k with
      | (Ok l, k1) => parse_loop w b l k1
      | (Raise e, k1) => (Raise e, k1)
      end.
Proof.
  induction a as [|t a IH]; intros times k; cbn [app parse_loop].
  - reflexivity.
  - destruct (dim t).
    + unfold bind, datetime_now, lift.
      destruct (timedelta_seconds (normalized_value t)); [|reflexivity].
      destruct (datetime_add (clock w k) a0); [apply IH | reflexivity].
    + destruct (value_value t) as [v|]; [|apply IH].
      destruct (fromisoformat w v); [apply IH | reflexivity].
  Qed.

(** X1. When [parse] returns, the spans of its entries are the spans of the
    usable candidates, in the order of the response, and the clock was read
    once for each duration candidate. *)
Theorem parse_keeps_spans_and_counts_readings (argument timezone : pystr)
    (now : datetime) (k k' : nat) (l : list Parsed) :
  DatetimeConverter_parse w argument timezone (Some now) k = (Ok l, k') ->
  map parsed_span l
  = map candidate_span (filter usable (duckling w timezone argument))
  /\ k' = (k + length (filter is_duration (duckling w timezone argument)))%nat.
Proof.
  unfold DatetimeConverter_parse, bind, ret.
  assert (H : forall data times k0 k1 l0,
             parse_loop w data times k0 = (Ok l0, k1) ->
             map parsed_span l0
             = map parsed_span times ++ map candidate_span (filter usable data)
             /\ k1 = (k0 + length (filter is_duration data))%nat).
  { induction data as [|t data IH]; intros times k0 k1 l0;
      cbn [parse_loop filter].
    - unfold ret. intros [= <- <-]. cbn [map length].
      rewrite app_nil_r, Nat.add_0_r. now split.
    - destruct (dim t) eqn:Hd.
      + assert (Hu : usable t = true) by (unfold usable; now rewrite Hd).
        assert (Hi : is_duration t = true)
          by (unfold is_duration; now rewrite Hd).
        rewrite Hu, Hi. unfold bind, datetime_now, lift.
        destruct (timedelta_seconds (normalized_value t)); [|discriminate].
        destruct (datetime_add (clock w k0) a); [|discriminate].
        intros H. apply IH in H. destruct H as [Hs Hk]. split.
        * rewrite Hs, map_app, <- app_assoc. reflexivity.
        * cbn [length]. lia.
      + assert (Hi : is_duration t = false)
          by (unfold is_duration; now rewrite Hd).
        rewrite Hi. unfold usable. rewrite Hd.
        destruct (value_value t) as [v|]; [|apply IH].
        destruct (fromisoformat w v); [|discriminate].
        intros H. apply IH in H. destruct H as [Hs Hk]. split.
        * rewrite Hs, map_app, <- app_assoc. reflexivity.
        * exact Hk. }
  intros Hl. apply H in Hl. exact Hl.
Qed.

End ParseFacts.

Section SplitterFacts.

Import Converters.

Variable w : World.

Lemma parse_loop_unusable (data : list DucklingResponse) :
  Forall (fun t => usable t = false) data ->
  forall (times : list Parsed) (k : nat),
    parse_loop w data times k = (Ok times, k).
Proof.
  induction 1 as [|t data Ht _ IH]; intros times k; cbn [parse_loop].
  - reflexivity.
  - unfold usable in Ht. destruct (dim t); [discriminate|].
    destruct (value_value t); [discriminate | apply IH].
Qed.

(** X2. A response with no usable candidate (no candidate at all, or only
    times without a value) makes each of the four entry points fail with
    "Could not parse time.", without a clock reading. *)
Theorem nothing_usable_is_a_parse_failure (k : nat) :
  (forall ctx argument,
      ctx_duckling_key ctx = true ->
      Forall (fun t => usable t = false)
        (duckling w (DatetimeConverter_get_timezone ctx)
           (strip_common_stuff argument)) ->
      WhenAndWhatConverter_convert w ctx argument k
      = (Raise (BadArgument could_not_parse), k))
  /\ (forall ctx argument,
         ctx_duckling_key ctx = true ->
         Forall (fun t => usable t = false)
           (duckling w (DatetimeConverter_get_timezone ctx) argument) ->
         DatetimeConverter_convert w ctx argument k
         = (Raise (BadArgument could_not_parse), k))
  /\ (forall i value,
         int_duckling_key i = true ->
         Forall (fun t => usable t = false)
           (duckling w (WhenAndWhatTransformer_get_timezone i)
              (strip_common_stuff value)) ->
         WhenAndWhatTransformer_transform w i value k
         = (Raise (BadDatetimeTransform could_not_parse), k))
  /\ (forall i argument,
         int_duckling_key i = true ->
         Forall (fun t => usable t = false)
           (duckling w (DatetimeTransformer_get_timezone i) argument) ->
         DatetimeTransformer_transform w i argument k
         = (Raise (BadDatetimeTransform could_not_parse), k)).
Proof.
  repeat split; intros c a Hkey Hdata.
  - unfold WhenAndWhatConverter_convert, DatetimeConverter_parse, bind, ret.
    rewrite Hkey. cbn [negb]. now rewrite (parse_loop_unusable Hdata).
  - unfold DatetimeConverter_convert, DatetimeConverter_parse, bind, ret.
    rewrite Hkey. cbn [negb]. now rewrite (parse_loop_unusable Hdata).
  - unfold WhenAndWhatTransformer_transform, WhenAndWhatTransformer_parse,
      DatetimeConverter_parse, bind, ret.
    rewrite Hkey. cbn [negb]. now rewrite (parse_loop_unusable Hdata).
  - unfold DatetimeTransformer_transform, DatetimeTransformer_parse,
      DatetimeConverter_parse, bind, ret.
    rewrite Hkey. cbn [negb]. now rewrite (parse_loop_unusable Hdata).
Qed.

(** X3. Every candidate is resolved before the first one is selected: a time
    candidate whose value [fromisoformat] rejects, anywhere in the response
    after candidates that resolve, makes the converter raise [ValueError],
    whatever the first candidate is. *)
Theorem malformed_candidate_fails_conversion (ctx : Context)
    (argument : pystr) (k k1 : nat) (before after : list DucklingResponse)
    (t : DucklingResponse) (v : pystr) (l : list Parsed) :
  ctx_duckling_key ctx = true ->
  duckling w (DatetimeConverter_get_timezone ctx)
    (strip_common_stuff argument) = before ++ t :: after ->
  parse_loop w before [] k = (Ok l, k1) ->
  dim t = time ->
  value_value t = Some v ->
  fromisoformat w v = None ->
  WhenAndWhatConverter_convert w ctx argument k = (Raise ValueError, k1).
Proof.
  intros Hkey Hdata Hbefore Hdim Hval Hiso.
  unfold WhenAndWhatConverter_convert, DatetimeConverter_parse, bind, ret.
  rewrite Hkey. cbn [negb]. rewrite Hdata, parse_loop_app, Hbefore.
  cbn [parse_loop]. now rewrite Hdim, Hval, Hiso.
Qed.

(** X4. Whenever the splitter returns a pair for a text, the whole-string
    converter, given the text as the splitter trimmed it, returns the pair's
    timestamp. *)
Theorem whole_string_agrees_with_splitter (ctx : Context) (argument : pystr)
    (k k' : nat) (when : datetime) (what : pystr) :
  WhenAndWhatConverter_convert w ctx argument k = (Ok (when, what), k') ->
  DatetimeConverter_convert w ctx (strip_common_stuff argument) k
  = (Ok when, k').
Proof.
  unfold WhenAndWhatConverter_convert, DatetimeConverter_convert, bind.
  destruct (negb (ctx_duckling_key ctx)); [discriminate|].
  destruct (DatetimeConverter_parse w _ _ _ k) as [[l|e] k1]; [|discriminate].
  destruct l as [|[[t b] e] l]; [discriminate|].
  destruct (negb (b =? 0)%Z && negb (e =? len _)%Z); [discriminate|].
  now intros [= -> _ ->].
Qed.

(** X5. When the selected span ends at the end of the trimmed text and does
    not start at 0, the residual label is the text before the span, trimmed,
    without a leading "to ", and the ellipsis if nothing is left. *)
Theorem suffix_span_residual (ctx : Context) (argument : pystr) (k k' : nat)
    (when : datetime) (begin end_ : Z) (rest : list Parsed) :
  let a := strip_common_stuff argument in
  ctx_duckling_key ctx = true ->
  DatetimeConverter_parse w a (DatetimeConverter_get_timezone ctx)
    (Some (ctx_created_at ctx)) k = (Ok ((when, begin, end_) :: rest), k') ->
  begin <> 0%Z ->
  end_ = len a ->
  WhenAndWhatConverter_convert w ctx argument k
  = (Ok (when, or_ellipsis (strip_to (strip (slice_to a begin)))), k').
Proof.
  intros a Hkey Hparse Hb He.
  rewrite (convert_selected w ctx argument k Hkey Hparse). fold a.
  apply Z.eqb_neq in Hb. rewrite Hb, He, Z.eqb_refl. reflexivity.
Qed.

End SplitterFacts.

Section PartsOfTheText.

Import Converters.

Lemma part_of_refl (s : pystr) : part_of s s.
Proof. exists [], []. now rewrite app_nil_r. Qed.

Lemma part_of_trans (a b c : pystr) :
  part_of a b -> part_of b c -> part_of a c.
Proof.
  intros (p1 & q1 & ->) (p2 & q2 & ->).
  exists (p2 ++ p1), (q1 ++ q2). now rewrite !app_assoc.
Qed.

Lemma suffix_part_of (pre s : pystr) : part_of s (pre ++ s).
Proof. exists pre, []. now rewrite app_nil_r. Qed.

Lemma prefix_part_of (s post : pystr) : part_of s (s ++ post).
Proof. now exists [], post. Qed.

Lemma dropwhile_part_of (p : char -> bool) (s : pystr) :
  part_of (dropwhile p s) s.
Proof.
  induction s as [|c s IH]; cbn [dropwhile]; [apply part_of_refl|].
  destruct (p c); [|apply part_of_refl].
  eapply part_of_trans; [exact IH | apply (suffix_part_of [c])].
Qed.

Lemma rev_part_of (a b : pystr) : part_of a b -> part_of (rev a) (rev b).
Proof.
  intros (p & q & ->). exists (rev q), (rev p).
  now rewrite !rev_app_distr, app_assoc.
Qed.

Lemma strip_part_of (s : pystr) : part_of (strip s) s.
Proof.
  unfold strip, rstrip, lstrip.
  eapply part_of_trans; [|apply (dropwhile_part_of isspace s)].
  pose proof (rev_part_of
                (dropwhile_part_of isspace (rev (dropwhile isspace s)))) as H.
  now rewrite rev_involutive in H.
Qed.

Lemma slice_from_part_of (s : pystr) (lo : Z) : part_of (slice_from s lo) s.
Proof.
  unfold slice_from. exists (firstn (Z.to_nat (clip (len s) lo)) s), [].
  now rewrite app_nil_r, firstn_skipn.
Qed.

Lemma slice_to_part_of (s : pystr) (hi : Z) : part_of (slice_to s hi) s.
Proof.
  unfold slice_to. exists [], (skipn (Z.to_nat (clip (len s) hi)) s).
  cbn [app]. now rewrite firstn_skipn.
Qed.

Lemma strip_first_prefix_part_of (ps : list pystr) (s : pystr) :
  part_of (strip_first_prefix ps s) s.
Proof.
  induction ps as [|p ps IH]; cbn [strip_first_prefix]; [apply part_of_refl|].
  destruct (startswith s p); [apply slice_from_part_of | exact IH].
Qed.

Lemma strip_each_prefix_part_of (ps : list pystr) (s : pystr) :
  part_of (strip_each_prefix ps s) s.
Proof.
  revert s. induction ps as [|p ps IH]; intros s; cbn [strip_each_prefix];
    [apply part_of_refl|].
  eapply part_of_trans; [apply IH|].
  destruct (startswith s p); [apply slice_from_part_of | apply part_of_refl].
Qed.

Lemma strip_each_suffix_part_of (ss : list pystr) (s : pystr) :
  part_of (strip_each_suffix ss s) s.
Proof.
  revert s. induction ss as [|x ss IH]; intros s; cbn [strip_each_suffix];
    [apply part_of_refl|].
  eapply part_of_trans; [apply IH|].
  destruct (endswith s x); [apply slice_to_part_of | apply part_of_refl].
Qed.

(** X6. The text the splitter sends to Duckling is a contiguous part of the
    input, is not longer than it, and has no white space at either end. *)
Theorem strip_common_stuff_trimmed_part (argument : pystr) :
  let a := strip_common_stuff argument in
  part_of a argument
  /\ (length a <= length argument)%nat
  /\ no_lead a
  /\ no_lead (rev a).
Proof.
  intros a. split; [|split; [|split]].
  - unfold a, strip_common_stuff.
    eapply part_of_trans; [apply strip_part_of|].
    eapply part_of_trans;
      [apply strip_each_suffix_part_of | apply strip_first_prefix_part_of].
  - assert (H : part_of a argument).
    { unfold a, strip_common_stuff.
      eapply part_of_trans; [apply strip_part_of|].
      eapply part_of_trans;
        [apply strip_each_suffix_part_of | apply strip_first_prefix_part_of]. }
    destruct H as (p & q & H). rewrite H, !length_app. lia.
  - apply strip_no_lead.
  - apply strip_no_trail.
Qed.

Lemma convert_label_shape (w : World) (ctx : Context) (argument : pystr)
    (k k' : nat) (when : datetime) (what : pystr) :
  WhenAndWhatConverter_convert w ctx argument k = (Ok (when, what), k') ->
  exists b e,
    what
    = or_ellipsis
        (strip_to
           (if (b =? 0)%Z
            then lstrip_chars
                   (slice_from (strip_common_stuff argument) (e + 1))
                   separators
            else strip (slice_to (strip_common_stuff argument) b))).
Proof.
  unfold WhenAndWhatConverter_convert, bind.
  destruct (negb (ctx_duckling_key ctx)); [discriminate|].
  destruct (DatetimeConverter_parse w _ _ _ k) as [[l|e] k1]; [|discriminate].
  destruct l as [|[[t b] e] l]; [discriminate|].
  destruct (negb (b =? 0)%Z && negb (e =? len _)%Z); [discriminate|].
  intros [= _ <- _]. exists b, e. reflexivity.
Qed.

(** X7. The label the splitter returns is never made up: it is the ellipsis
    or a contiguous part of the input. *)
Theorem label_is_part_of_the_input (w : World) (ctx : Context)
    (argument : pystr) (k k' : nat) (when : datetime) (what : pystr) :
  WhenAndWhatConverter_convert w ctx argument k = (Ok (when, what), k') ->
  what = ellipsis \/ part_of what argument.
Proof.
  intros H. apply convert_label_shape in H. destruct H as (b & e & ->).
  match goal with
  | |- or_ellipsis ?x = _ \/ _ => destruct x as [|c x'] eqn:E
  end; [now left | right].
  cbn [or_ellipsis]. rewrite <- E. unfold strip_to.
  eapply part_of_trans; [apply strip_each_prefix_part_of|].
  eapply part_of_trans;
    [|apply (proj1 (strip_common_stuff_trimmed_part argument))].
  destruct (b =? 0)%Z.
  - eapply part_of_trans; [apply dropwhile_part_of | apply slice_from_part_of].
  - eapply part_of_trans; [apply strip_part_of | apply slice_to_part_of].
Qed.

End PartsOfTheText.

(* ===================================================================== *)
(** ** More on paste-id extraction                                       *)
(* ===================================================================== *)

Section PasteReferences.

Import Converters.

Variable db : UnicodeDB.

Lemma MYSTBIN_REGEX_parts :
  MYSTBIN_REGEX db
  = re_seq (re_opt url_prefix_regex)
      (re_seq (re_group "id" (re_star id_word_regex)) (ext_regex db)).
Proof. reflexivity. Qed.

Lemma re_class_keeps_groups (p : char -> bool) : keeps_groups (re_class p).
Proof.
  intros [|c s] g k m; cbn; [discriminate|].
  destruct (p c); [|discriminate]. intros H. now exists s.
Qed.

Lemma re_seq_keeps_groups (r1 r2 : Regex) :
  keeps_groups r1 -> keeps_groups r2 -> keeps_groups (re_seq r1 r2).
Proof.
  intros H1 H2 s g k m H. unfold re_seq in H.
  apply H1 in H. destruct H as (s1 & H). now apply H2 in H.
Qed.

Lemma re_star_keeps_groups (r : Regex) :
  keeps_groups r -> keeps_groups (re_star r).
Proof.
  intros Hr s g k m. unfold re_star. generalize (length s) at 1.
  intros fuel. revert s g. induction fuel as [|fuel IH]; intros s g;
    cbn [re_star_fuel].
  - intros H. now exists s.
  - match goal with
    | |- match ?x with _ => _ end = _ -> _ => destruct x as [m'|] eqn:E
    end.
    + intros [= <-]. apply Hr in E. destruct E as (s1 & E).
      destruct (length s1 <? length s)%nat; [|discriminate].
      now apply IH in E.
    + intros H. now exists s.
Qed.

(** The optional extension leaves the group [id] as it is. *)
Lemma ext_regex_keeps_id (s : pystr) (g : Groups) (m : Match) :
  ext_regex db s g (fun s' g' => Some (s', g')) = Some m ->
  group_get "id" (snd m) = group_get "id" g.
Proof.
  unfold ext_regex, re_opt.
  match goal with
  | |- match ?x with _ => _ end = _ -> _ => destruct x as [m'|] eqn:E
  end.
  - intros [= <-]. unfold re_group in E.
    assert (H : keeps_groups
                  (re_seq (re_char 46%N)
                     (re_plus (re_class (isword_char db))))).
    { apply re_seq_keeps_groups; [apply re_class_keeps_groups|].
      apply re_seq_keeps_groups;
        [|apply re_star_keeps_groups]; apply re_class_keeps_groups. }
    apply H in E. destruct E as (s' & [= <-]). reflexivity.
  - intros [= <-]. reflexivity.
Qed.

Lemma ext_regex_accepts (s : pystr) (g : Groups) :
  ext_regex db s g (fun s' g' => Some (s', g')) <> None.
Proof. apply re_opt_always. intros s' g'. discriminate. Qed.

(** What [match] gives once the URL prefix has been dealt with and the
    repetition of id words has stopped before [tail]. *)
Lemma id_then_ext (s tail : pystr) (g : Groups) (captured : pystr) :
  firstn (length s - length tail) s = captured ->
  exists m,
    ext_regex db tail (("id"%string, captured) :: g)
      (fun s' g' => Some (s', g')) = Some m
    /\ group_get "id" (snd m) = Some captured.
Proof.
  intros Hcap.
  destruct (ext_regex db tail (("id"%string, captured) :: g)
              (fun s' g' => Some (s', g'))) as [m|] eqn:E.
  - exists m. split; [reflexivity|].
    now rewrite (ext_regex_keeps_id _ _ E).
  - now apply ext_regex_accepts in E.
Qed.

(** A text that cannot begin the URL prefix or an id word: the match at
    offset 0 is empty. *)
Lemma nothing_at_the_start (c : char) (rest : pystr) :
  is_upper c = false ->
  c <> 104%N -> c <> 98%N -> c <> 109%N ->
  exists m,
    re_match (MYSTBIN_REGEX db) (c :: rest) = Some m
    /\ group_get "id" (snd m) = Some [].
Proof.
  intros Hup Hh Hb Hm.
  apply N.eqb_neq in Hh, Hb, Hm.
  assert (Hcap : firstn (length (c :: rest) - length (c :: rest)) (c :: rest)
                 = []) by now rewrite Nat.sub_diag.
  destruct (@id_then_ext (c :: rest) (c :: rest) [] [] Hcap)
    as (m & Hm1 & Hm2).
  exists m. split; [|exact Hm2].
  rewrite <- Hm1. rewrite MYSTBIN_REGEX_parts.
  unfold re_match, re_seq at 1, re_opt at 1.
  replace (url_prefix_regex (c :: rest) [] _) with (@None Match).
  2: { unfold url_prefix_regex. cbn.
       cbv beta iota delta [re_seq re_opt re_char re_class re_empty].
       rewrite (N.eqb_sym 104 c), (N.eqb_sym 98 c), (N.eqb_sym 109 c).
       now rewrite Hh, Hb, Hm. }
  unfold re_seq at 1, re_group, re_star.
  cbn [length re_star_fuel]. unfold id_word_regex at 1, re_seq at 1.
  unfold re_range at 1, re_class at 1. fold (is_upper c). rewrite Hup.
  now rewrite Nat.sub_diag.
Qed.

(** X8. The identifier is read at the start of the text only: when the text
    is empty, or its first character is neither a capital letter nor one of
    h, b, m (the letters the URL prefix can begin with), the converter
    returns the empty identifier, whatever follows. *)
Theorem nothing_at_the_start_gives_empty_id (argument : pystr) :
  match argument with
  | [] => True
  | c :: _ => is_upper c = false /\ c <> 104%N /\ c <> 98%N /\ c <> 109%N
  end ->
  MystbinPasteConverter_convert db argument = Ok (Some []).
Proof.
  destruct argument as [|c rest].
  - intros _. unfold MystbinPasteConverter_convert.
    destruct (@id_then_ext [] [] [] [] eq_refl) as (m & Hm1 & Hm2).
    replace (re_search (MYSTBIN_REGEX db) []) with (Some m)
      by (rewrite <- Hm1; reflexivity).
    destruct m as [r gs]. cbn [snd] in Hm2. now rewrite Hm2.
  - intros (Hup & Hh & Hb & Hm).
    destruct (nothing_at_the_start rest Hup Hh Hb Hm) as (m & Hm1 & Hm2).
    unfold MystbinPasteConverter_convert. cbn [re_search]. rewrite Hm1.
    destruct m as [r gs]. cbn [snd] in Hm2. now rewrite Hm2.
Qed.

Lemma re_range_upper_cons (c : char) (s : pystr) (g : Groups) (k : Cont) :
  re_range "A" "Z" (c :: s) g k = if is_upper c then k s g else None.
Proof. reflexivity. Qed.

Lemma re_range_lower_cons (c : char) (s : pystr) (g : Groups) (k : Cont) :
  re_range "a" "z" (c :: s) g k = if is_lower c then k s g else None.
Proof. reflexivity. Qed.

Lemma upper_bounds (c : char) : is_upper c = true -> (65 <= c <= 90)%N.
Proof.
  unfold is_upper. change (N_of_ascii "A") with 65%N.
  change (N_of_ascii "Z") with 90%N.
  intros H. apply andb_true_iff in H. destruct H as [H1 H2].
  apply N.leb_le in H1, H2. lia.
Qed.

Lemma not_lower_bounds (c : char) :
  is_lower c = false -> (c < 97 \/ 122 < c)%N.
Proof.
  unfold is_lower. change (N_of_ascii "a") with 97%N.
  change (N_of_ascii "z") with 122%N.
  intros H. apply andb_false_iff in H. destruct H as [H | H];
    apply N.leb_gt in H; lia.
Qed.

Lemma upper_is_not_lower (c : char) : is_upper c = true -> is_lower c = false.
Proof.
  intros H. apply upper_bounds in H. unfold is_lower.
  change (N_of_ascii "a") with 97%N. apply andb_false_iff. left.
  apply N.leb_gt. lia.
Qed.

(** The greedy run of lower-case letters takes all of them when what
    follows is accepted. *)
Lemma lower_run (ls tail : pystr) (g : Groups) (k : Cont) (m : Match) :
  forallb is_lower ls = true ->
  match tail with [] => True | c :: _ => is_lower c = false end ->
  k tail g = Some m ->
  forall fuel, (length ls <= fuel)%nat ->
    re_star_fuel fuel (re_range "a" "z") (ls ++ tail) g k = Some m.
Proof.
  intros Hls Htail Hk. induction ls as [|l ls IH]; intros fuel Hfuel.
  - cbn [app]. destruct fuel as [|fuel]; cbn [re_star_fuel]; [exact Hk|].
    destruct tail as [|c tail]; [exact Hk|].
    rewrite re_range_lower_cons, Htail. exact Hk.
  - cbn [forallb] in Hls. apply andb_true_iff in Hls. destruct Hls as [Hl Hls].
    destruct fuel as [|fuel]; [cbn in Hfuel; lia|].
    cbn [app re_star_fuel]. rewrite re_range_lower_cons, Hl.
    replace (length (ls ++ tail) <? length (l :: ls ++ tail))%nat with true
      by (symmetry; apply Nat.ltb_lt; cbn [length]; lia).
    rewrite IH; [reflexivity | exact Hls | cbn [length] in Hfuel; lia].
Qed.

(** The greedy repetition of id words takes all of them when what follows
    does not go on with a letter and is accepted. *)
Lemma word_star (ws : list pystr) (tail : pystr) (g : Groups) (k : Cont)
    (m : Match) :
  Forall id_word ws ->
  no_letter_ahead tail ->
  k tail g = Some m ->
  forall fuel, (length (concat ws) <= fuel)%nat ->
    re_star_fuel fuel id_word_regex (concat ws ++ tail) g k = Some m.
Proof.
  intros Hws Htail Hk. induction Hws as [|word ws Hword Hws IH];
    intros fuel Hfuel.
  - cbn [concat app]. destruct fuel as [|fuel]; cbn [re_star_fuel];
      [exact Hk|].
    destruct tail as [|c tail]; [exact Hk|].
    unfold id_word_regex at 1, re_seq at 1.
    rewrite re_range_upper_cons. destruct Htail as [Hup _]. rewrite Hup.
    exact Hk.
  - destruct word as [|c [|l ls]]; try contradiction.
    destruct Hword as [Hc Hls].
    cbn [forallb] in Hls. apply andb_true_iff in Hls. destruct Hls as [Hl Hls].
    cbn [concat]. rewrite <- app_assoc. cbn [app].
    cbn [concat app length] in Hfuel. rewrite length_app in Hfuel.
    destruct fuel as [|fuel]; [lia|].
    cbn [re_star_fuel]. unfold id_word_regex at 1, re_seq at 1.
    rewrite re_range_upper_cons, Hc.
    unfold re_plus, re_seq at 1. rewrite re_range_lower_cons, Hl.
    unfold re_star.
    rewrite (@lower_run ls (concat ws ++ tail) g _ m); [reflexivity | | | |].
    + exact Hls.
    + destruct ws as [|word' ws'].
      * cbn [concat app]. destruct tail; [exact I | apply Htail].
      * inversion Hws as [|? ? Hword' _]; subst.
        destruct word' as [|c' [|l' ls']]; try contradiction.
        cbn [concat app]. apply upper_is_not_lower, Hword'.
    + replace (length (concat ws ++ tail)
               <? length (c :: l :: ls ++ concat ws ++ tail))%nat
        with true
        by (symmetry; apply Nat.ltb_lt; cbn [length];
            rewrite !length_app; lia).
      apply IH. lia.
    + rewrite length_app. lia.
Qed.

Lemma firstn_consumed (l tail : pystr) :
  firstn (length (l ++ tail) - length tail) (l ++ tail) = l.
Proof.
  replace (length (l ++ tail) - length tail)%nat with (length l + 0)%nat
    by (rewrite length_app; lia).
  rewrite firstn_app_2. cbn [firstn]. apply app_nil_r.
Qed.

Lemma re_search_at_start (r : Regex) (s : pystr) (m : Match) :
  re_match r s = Some m -> re_search r s = Some m.
Proof. intros H. destruct s; cbn [re_search]; now rewrite H. Qed.

(** After one of the prefix forms the pattern goes on with the rest; at
    the very start of a text that cannot begin a prefix it is skipped. *)
Lemma url_prefix_then (prefix body : pystr) (K : Cont) (m : Match) :
  In prefix url_prefixes ->
  match body with
  | [] => True
  | c :: _ => c <> 104%N /\ c <> 98%N /\ c <> 109%N
  end ->
  K body [] = Some m ->
  re_opt url_prefix_regex (prefix ++ body) [] K = Some m.
Proof.
  intros Hin Hbody HK. unfold url_prefixes in Hin. cbn [In] in Hin.
  assert (Hskip : re_opt url_prefix_regex body [] K = Some m).
  { unfold re_opt, url_prefix_regex. cbn.
    cbv beta iota delta [re_seq re_opt re_char re_class re_empty].
    destruct body as [|c body]; [exact HK|].
    destruct Hbody as (Hh & Hb & Hm).
    apply N.eqb_neq in Hh, Hb, Hm.
    rewrite (N.eqb_sym 104 c), (N.eqb_sym 98 c), (N.eqb_sym 109 c).
    now rewrite Hh, Hb, Hm. }
  destruct Hin as [<- | [<- | [<- | [<- | [<- | [<- | [<- | []]]]]]]];
    [exact Hskip | | | | | |];
    unfold re_opt, url_prefix_regex; cbn;
    cbv beta iota delta [re_seq re_opt re_char re_class re_empty];
    cbn; rewrite HK; reflexivity.
Qed.

(** X9. A paste reference at the start of the text yields its identifier:
    after any form of the URL prefix (or none), an identifier made of words,
    each a capital letter followed by lower-case letters, is returned whole
    when the text does not go on with a letter. *)
Theorem reference_at_the_start_yields_id (prefix rest : pystr)
    (words : list pystr) :
  In prefix url_prefixes ->
  Forall id_word words ->
  no_letter_ahead rest ->
  MystbinPasteConverter_convert db (prefix ++ concat words ++ rest)
  = Ok (Some (concat words)).
Proof.
  intros Hprefix Hwords Hrest.
  destruct (@id_then_ext (concat words ++ rest) rest [] (concat words)
              (firstn_consumed (concat words) rest)) as (m & Hm1 & Hm2).
  unfold MystbinPasteConverter_convert.
  rewrite (@re_search_at_start (MYSTBIN_REGEX db) _ m).
  - destruct m as [r gs]. cbn [snd] in Hm2. now rewrite Hm2.
  - unfold re_match. rewrite MYSTBIN_REGEX_parts. unfold re_seq at 1.
    apply url_prefix_then; [exact Hprefix | |].
    + destruct words as [|word words'].
      * cbn [concat app]. destruct rest as [|c rest']; [exact I|].
        destruct Hrest as [_ Hlow]. apply not_lower_bounds in Hlow. lia.
      * inversion Hwords as [|? ? Hword _]; subst.
        destruct word as [|c [|l ls]]; try contradiction.
        cbn [concat app]. destruct Hword as [Hc _].
        apply upper_bounds in Hc. lia.
    + unfold re_seq at 1, re_group, re_star.
      apply word_star;
        [exact Hwords | exact Hrest | | rewrite length_app; lia].
      rewrite firstn_consumed. exact Hm1.
Qed.

End PasteReferences.

(* ===================================================================== *)
(** ** More on the pagination view                                       *)
(* ===================================================================== *)

Section ViewFacts.

Import Paginator PaginatorItems.

Variables Page Embed : Type.
Variable db : UnicodeDB.

Local Abbreviation View := (RoboPages Page Embed).
Local Abbreviation Inter := (Interaction Embed).

Lemma update_labels_source (v : View) (n : Z) :
  source (_update_labels v n) = source v.
Proof.
  unfold _update_labels.
  destruct (compact v); [reflexivity|].
  destruct (get_max_pages (source v)); reflexivity.
Qed.

Lemma update_labels_message (v : View) (n : Z) :
  message (_update_labels v n) = message v
  /\ is_finished (_update_labels v n) = is_finished v
  /\ compact (_update_labels v n) = compact v.
Proof.
  unfold _update_labels.
  destruct (compact v) eqn:E; [cbn; now rewrite E|].
  destruct (get_max_pages (source v)); cbn; now rewrite E.
Qed.

(** [show_page] returns without an exception only after the source gave
    the page and the labels were brought up to date. *)
Lemma show_page_success (v v' : View) (i i' : Inter) (n : Z) :
  show_page v i n = (v', i', None) ->
  (exists p, get_page (source v) n = Ok p)
  /\ v' = _update_labels (set_current_page v n) n.
Proof.
  unfold show_page.
  destruct (get_page (source v) n) as [p|e]; [|discriminate].
  destruct (_get_kwargs_from_page (set_current_page v n) p) as [kw|e];
    [|discriminate].
  intros H. split; [now exists p|].
  destruct kw as [|x kw]; [now injection H as <- _|].
  destruct (is_done i); [|now injection H as <- _].
  destruct (message _); now injection H as <- _.
Qed.

(** Whatever happens in [show_page], the source stays and the index is
    the old one or the one asked for. *)
Lemma show_page_view_facts (v : View) (i : Inter) (n : Z) :
  source (view_of (show_page v i n)) = source v
  /\ message (view_of (show_page v i n)) = message v
  /\ is_finished (view_of (show_page v i n)) = is_finished v
  /\ (current_page (view_of (show_page v i n)) = n
      \/ current_page (view_of (show_page v i n)) = current_page v).
Proof.
  unfold show_page.
  destruct (get_page (source v) n) as [p|e]; [|cbn; tauto].
  destruct (_get_kwargs_from_page (set_current_page v n) p) as [kw|e];
    [|cbn; tauto].
  assert (H : forall j,
             source (view_of (_update_labels (set_current_page v n) n, j,
                              @None exn)) = source v
             /\ message (view_of (_update_labels (set_current_page v n) n, j,
                                  @None exn)) = message v
             /\ is_finished
                  (view_of (_update_labels (set_current_page v n) n, j,
                            @None exn)) = is_finished v
             /\ (current_page
                   (view_of (_update_labels (set_current_page v n) n, j,
                             @None exn)) = n
                 \/ current_page
                      (view_of (_update_labels (set_current_page v n) n, j,
                                @None exn)) = current_page v)).
  { intros j. unfold view_of. cbn [fst].
    rewrite update_labels_source, update_labels_current_page.
    destruct (update_labels_message (set_current_page v n) n)
      as (Hm & Hf & _).
    rewrite Hm, Hf. cbn. tauto. }
  destruct kw as [|x kw]; [apply H|].
  destruct (is_done i); [|apply H].
  destruct (message (_update_labels (set_current_page v n) n)); apply H.
Qed.

Lemma show_checked_page_view_facts (v : View) (i : Inter) (n m : Z) :
  get_max_pages (source v) = Some m ->
  source (view_of (show_checked_page v i n)) = source v
  /\ message (view_of (show_checked_page v i n)) = message v
  /\ is_finished (view_of (show_checked_page v i n)) = is_finished v
  /\ ((current_page (view_of (show_checked_page v i n)) = n
       /\ (0 <= n < m)%Z)
      \/ current_page (view_of (show_checked_page v i n)) = current_page v).
Proof.
  intros Hm. rewrite show_checked_page_view, Hm.
  destruct ((m >? n) && (n >=? 0))%Z eqn:E; [|tauto].
  apply andb_true_iff in E. destruct E as [E1 E2].
  rewrite Z.gtb_ltb in E1. rewrite Z.geb_leb in E2.
  apply Z.ltb_lt in E1. apply Z.leb_le in E2.
  destruct (show_page_view_facts v i n) as (Hs & Hmsg & Hf & [Hc | Hc]);
    repeat split; try assumption; [left; lia | now right].
Qed.

(** One click keeps the source and keeps the index within the pages. *)
Lemma after_press_in_range (v : View) (m : Z) (p : Press) :
  get_max_pages (source v) = Some m ->
  (0 <= current_page v < m)%Z ->
  source (after_press db v p) = source v
  /\ (0 <= current_page (after_press db v p) < m)%Z.
Proof.
  intros Hm Hcur. destruct p as [| | | |reply]; cbn [after_press].
  - unfold go_to_first_page.
    destruct (show_page_view_facts v (fresh_interaction Embed) 0)
      as (Hs & _ & _ & [Hc | Hc]); split; try assumption; lia.
  - unfold go_to_previous_page.
    destruct (show_checked_page_view_facts v (fresh_interaction Embed)
                (current_page v - 1) Hm)
      as (Hs & _ & _ & [[Hc Hr] | Hc]); split; try assumption; lia.
  - unfold go_to_next_page.
    destruct (show_checked_page_view_facts v (fresh_interaction Embed)
                (current_page v + 1) Hm)
      as (Hs & _ & _ & [[Hc Hr] | Hc]); split; try assumption; lia.
  - unfold go_to_last_page. rewrite Hm.
    destruct (show_page_view_facts v (fresh_interaction Embed) (m - 1))
      as (Hs & _ & _ & [Hc | Hc]); split; try assumption; lia.
  - unfold numbered_page.
    destruct (negb (message v)); [cbn; tauto|].
    destruct reply as [|value]; [cbn; tauto|].
    destruct (is_finished v); [cbn; tauto|].
    destruct (negb (isdigit db value)); [cbn; tauto|].
    destruct (int_of_digits db value) as [n|e]; [|cbn; tauto].
    pose proof (show_checked_page_view_facts v (fresh_interaction Embed)
                  (n - 1) Hm) as H.
    destruct (show_checked_page v (fresh_interaction Embed) (n - 1))
      as [[v' mi'] raised].
    unfold view_of in H. cbn [fst] in H.
    assert (G : source v' = source v /\ (0 <= current_page v' < m)%Z).
    { destruct H as (Hs & _ & _ & [[Hc Hr] | Hc]); split;
        try assumption; lia. }
    destruct raised as [e|]; [exact G|].
    destruct (negb (is_done mi')); exact G.
Qed.

(** X10. Invariant of the view. On a source that reports its number of
    pages, no series of clicks on first, previous, next, last and jump (with
    whatever is typed into the modal) takes the page index out of the pages,
    and the source stays the same. *)
Theorem current_page_stays_in_range (v : View) (m : Z) (ps : list Press) :
  get_max_pages (source v) = Some m ->
  (0 <= current_page v < m)%Z ->
  source (after_presses db v ps) = source v
  /\ (0 <= current_page (after_presses db v ps) < m)%Z.
Proof.
  revert v. induction ps as [|p ps IH]; intros v Hm Hcur.
  - now split.
  - change (after_presses db v (p :: ps))
      with (after_presses db (after_press db v p) ps).
    destruct (@after_press_in_range v m p Hm Hcur) as [Hs Hc].
    destruct (IH (after_press db v p)) as [Hs' Hc'];
      [now rewrite Hs | exact Hc |].
    split; [now rewrite Hs' | exact Hc'].
Qed.

End ViewFacts.

(* ===================================================================== *)
(** ** Decimal text and back                                             *)
(* ===================================================================== *)

Section DecimalText.

Variable db : UnicodeDB.

Lemma decimal_value_of_uint (u : Decimal.uint) :
  forall acc,
    decimal_value db acc (lit (NilEmpty.string_of_uint u))
    = Some (uint_value acc u).
Proof.
  induction u; intros acc; cbn [NilEmpty.string_of_uint uint_value];
    [reflexivity | ..];
    match goal with
    | |- decimal_value db acc (lit (String ?a ?s)) = _ =>
        change (lit (String a s)) with (N_of_ascii a :: lit s)
    end;
    cbn [decimal_value N_of_ascii N_of_digits];
    match goal with
    | |- context [todecimal db ?c] =>
        let c' := eval vm_compute in c in
        change c with c';
        rewrite (@ascii_todecimal db c') by lia
    end;
    apply IHu.
Qed.

Lemma isdigit_of_uint (u : Decimal.uint) :
  forallb (isdigit_char db) (lit (NilEmpty.string_of_uint u)) = true.
Proof.
  induction u; cbn [NilEmpty.string_of_uint]; [reflexivity | ..];
    match goal with
    | |- forallb _ (lit (String ?a ?s)) = _ =>
        change (lit (String a s)) with (N_of_ascii a :: lit s)
    end;
    cbn [forallb N_of_ascii N_of_digits];
    match goal with
    | |- context [isdigit_char db ?c] =>
        let c' := eval vm_compute in c in
        change c with c';
        rewrite (@ascii_isdigit db c') by lia
    end;
    exact IHu.
Qed.

Lemma uint_value_of_acc (u : Decimal.uint) :
  forall p, Z.pos (Pos.of_uint_acc u p) = uint_value (Z.pos p) u.
Proof.
  induction u; intros p; cbn [Pos.of_uint_acc uint_value];
    [reflexivity | ..]; rewrite IHu; f_equal; lia.
Qed.

Lemma uint_value_of_uint (u : Decimal.uint) :
  Z.of_N (Pos.of_uint u) = uint_value 0 u.
Proof.
  induction u; cbn [Pos.of_uint uint_value]; [reflexivity | exact IHu | ..];
    cbn [Z.of_N]; rewrite uint_value_of_acc; reflexivity.
Qed.

(** [str(n)] of a number that is not negative passes [isdigit], and
    [int] gives the number back. *)
Lemma str_of_int_round_trip (n : Z) :
  (0 <= n)%Z ->
  isdigit db (str_of_int n) = true
  /\ Paginator.int_of_digits db (str_of_int n) = Ok n.
Proof.
  intros Hn. unfold str_of_int, Paginator.int_of_digits.
  destruct n as [|p|p]; [| |lia].
  - cbn. rewrite (@ascii_isdigit db 48%N) by lia.
    rewrite (@ascii_todecimal db 48%N) by lia. now split.
  - cbn [Z.to_int NilEmpty.string_of_int].
    rewrite decimal_value_of_uint, <- uint_value_of_uint.
    rewrite DecimalPos.Unsigned.of_to. split; [|reflexivity].
    unfold isdigit.
    pose proof (isdigit_of_uint (Pos.to_uint p)) as Hd.
    destruct (lit (NilEmpty.string_of_uint (Pos.to_uint p))) eqn:E;
      [|exact Hd].
    exfalso. apply (DecimalPos.Unsigned.to_uint_nonnil p).
    destruct (Pos.to_uint p); [reflexivity | discriminate E ..].
Qed.

End DecimalText.

(* ===================================================================== *)
(** ** Buttons, labels and jumps                                         *)
(* ===================================================================== *)

Section ButtonFacts.

Import Paginator PaginatorItems.

Variables Page Embed : Type.
Variable db : UnicodeDB.

Local Abbreviation View := (RoboPages Page Embed).
Local Abbreviation Inter := (Interaction Embed).

Lemma update_labels_disabled_known (v : View) (n m : Z) :
  get_max_pages (source v) = Some m ->
  disabled (go_to_previous_page_button (_update_labels v n)) = (n =? 0)%Z
  /\ disabled (go_to_next_page_button (_update_labels v n))
     = (n + 1 >=? m)%Z.
Proof.
  intros Hm. unfold _update_labels. rewrite Hm.
  destruct (compact v); cbn; [now split|].
  destruct (n =? 0)%Z, (n + 1 >=? m)%Z; now split.
Qed.

(** X11. After [show_page] has rendered page [n] of a known number of pages,
    a disabled previous or next button is one whose click changes nothing,
    and an enabled one moves the index by one when the source supplies the
    neighbouring page. *)
Theorem disabled_means_nowhere_to_go (v v' : View) (i i' j : Inter)
    (n m : Z) :
  show_page v i n = (v', i', None) ->
  get_max_pages (source v) = Some m ->
  (0 <= n < m)%Z ->
  (disabled (go_to_previous_page_button v') = true ->
   go_to_previous_page v' j = (v', j, None))
  /\ (disabled (go_to_next_page_button v') = true ->
      go_to_next_page v' j = (v', j, None))
  /\ (disabled (go_to_previous_page_button v') = false ->
      forall p, get_page (source v) (n - 1) = Ok p ->
      current_page (view_of (go_to_previous_page v' j)) = (n - 1)%Z)
  /\ (disabled (go_to_next_page_button v') = false ->
      forall p, get_page (source v) (n + 1) = Ok p ->
      current_page (view_of (go_to_next_page v' j)) = (n + 1)%Z).
Proof.
  intros Hshow Hm Hn.
  apply show_page_success in Hshow. destruct Hshow as [_ ->].
  set (v1 := _update_labels (set_current_page v n) n).
  assert (Hs : source v1 = source v)
    by exact (update_labels_source (set_current_page v n) n).
  assert (Hc : current_page v1 = n)
    by exact (update_labels_current_page (set_current_page v n) n).
  assert (Hm1 : get_max_pages (source v1) = Some m) by now rewrite Hs.
  destruct (@update_labels_disabled_known (set_current_page v n) n m Hm)
    as [Hp Hx].
  fold v1 in Hp, Hx. rewrite Hp, Hx.
  unfold go_to_previous_page, go_to_next_page. rewrite Hc.
  repeat split.
  - intros H0. apply Z.eqb_eq in H0.
    apply (@show_checked_page_out_of_range _ _ v1 j (n - 1) m Hm1). lia.
  - intros H0. rewrite Z.geb_leb in H0. apply Z.leb_le in H0.
    apply (@show_checked_page_out_of_range _ _ v1 j (n + 1) m Hm1). lia.
  - intros H0 p Hp0. apply Z.eqb_neq in H0.
    rewrite show_checked_page_view, Hm1.
    replace ((m >? n - 1) && (n - 1 >=? 0))%Z with true.
    + apply show_page_current_page with (p := p). now rewrite Hs.
    + symmetry. apply andb_true_iff. rewrite Z.gtb_ltb, Z.geb_leb.
      split; [apply Z.ltb_lt | apply Z.leb_le]; lia.
  - intros H0 p Hp0. rewrite Z.geb_leb in H0. apply Z.leb_gt in H0.
    rewrite show_checked_page_view, Hm1.
    replace ((m >? n + 1) && (n + 1 >=? 0))%Z with true.
    + apply show_page_current_page with (p := p). now rewrite Hs.
    + symmetry. apply andb_true_iff. rewrite Z.gtb_ltb, Z.geb_leb.
      split; [apply Z.ltb_lt | apply Z.leb_le]; lia.
Qed.

(** X12. With an unknown number of pages and the full layout, [show_page]
    leaves previous and next enabled on every page, the first one included,
    where previous carries the label of page number 0. *)
Theorem unknown_count_leaves_buttons_enabled (v v' : View) (i i' : Inter)
    (n : Z) :
  show_page v i n = (v', i', None) ->
  get_max_pages (source v) = None ->
  compact v = false ->
  go_to_previous_page_button v'
  = {| label := str_of_int n; disabled := false |}
  /\ go_to_next_page_button v'
     = {| label := str_of_int (n + 2); disabled := false |}
  /\ label (go_to_current_page_button v') = str_of_int (n + 1).
Proof.
  intros Hshow Hm Hcompact.
  apply show_page_success in Hshow. destruct Hshow as [_ ->].
  unfold _update_labels. cbn [set_current_page source compact].
  rewrite Hm, Hcompact. cbn. now repeat split.
Qed.

(** X13. When the source returns the page but formatting it raises, the
    index has already moved: an [IndexError] is swallowed without anything
    being sent, and any other exception goes on to the caller. *)
Theorem failed_formatting_moves_the_index (v : View) (i : Inter)
    (n m : Z) (p : Page) (e : exn) :
  get_max_pages (source v) = Some m ->
  (0 <= n < m)%Z ->
  get_page (source v) n = Ok p ->
  format_page (source v) n p = Raise e ->
  show_checked_page v i n
  = (set_current_page v n, i,
     match e with IndexError => None | _ => Some e end).
Proof.
  intros Hm Hn Hpage Hformat. unfold show_checked_page. rewrite Hm.
  replace ((m >? n) && (n >=? 0))%Z with true.
  - unfold show_page, _get_kwargs_from_page. rewrite Hpage.
    cbn [set_current_page source current_page]. rewrite Hformat.
    destruct e; reflexivity.
  - symmetry. apply andb_true_iff. rewrite Z.gtb_ltb, Z.geb_leb.
    split; [apply Z.ltb_lt | apply Z.leb_le]; lia.
Qed.

(** X14. The last-page button is among the items exactly when the source
    paginates and reports at least two pages; so wherever the button exists,
    its callback finds a page count and asks for the page before it. *)
Theorem last_page_button_is_guarded (v : View) (i : Inter) :
  (In go_to_last_page_item (children (fill_items v))
   <-> is_paginating (source v) = true
       /\ exists m, get_max_pages (source v) = Some m /\ (2 <= m)%Z)
  /\ (In go_to_last_page_item (children (fill_items v)) ->
      exists m,
        get_max_pages (source v) = Some m
        /\ (0 <= m - 1 < m)%Z
        /\ go_to_last_page v i = show_page v i (m - 1)).
Proof.
  assert (Hiff : In go_to_last_page_item (children (fill_items v))
                 <-> is_paginating (source v) = true
                     /\ exists m, get_max_pages (source v) = Some m
                                  /\ (2 <= m)%Z).
  { unfold fill_items. cbn [children].
    destruct (is_paginating (source v)).
    - destruct (get_max_pages (source v)) as [m|].
      + destruct (Z.geb_spec m 2) as [Hge | Hlt].
        * split; [intros _; split; [reflexivity | exists m; split; [reflexivity | lia]]|].
          intros _. destruct (compact v); cbn; tauto.
        * split.
          { destruct (compact v); cbn;
              intros H; repeat (destruct H as [H | H]; try discriminate H);
              contradiction. }
          { intros [_ (m' & [= <-] & Hm')]. lia. }
      + split.
        * destruct (compact v); cbn;
            intros H; repeat (destruct H as [H | H]; try discriminate H);
            contradiction.
        * intros [_ (m' & Hm' & _)]. discriminate Hm'.
    - split; [intros [] | intros [H _]; discriminate H]. }
  split; [exact Hiff|].
  intros Hin. apply Hiff in Hin. destruct Hin as [_ (m & Hm & Hge)].
  exists m. split; [exact Hm|]. split; [lia|].
  unfold go_to_last_page. now rewrite Hm.
Qed.

(** X15. Next and then previous, or previous and then next, come back to the
    page they started from, when both neighbours are within the known pages
    and the source supplies them. *)
Theorem next_and_previous_cancel (v : View) (m : Z) (p0 p1 : Page)
    (there : Z) :
  get_max_pages (source v) = Some m ->
  (0 <= current_page v < m)%Z ->
  (0 <= there < m)%Z ->
  get_page (source v) (current_page v) = Ok p0 ->
  get_page (source v) there = Ok p1 ->
  (there = (current_page v + 1)%Z ->
   current_page (after_presses db v [press_next; press_previous])
   = current_page v)
  /\ (there = (current_page v - 1)%Z ->
      current_page (after_presses db v [press_previous; press_next])
      = current_page v).
Proof.
  intros Hm Hcur Hthere Hp0 Hp1.
  assert (Hstep : forall (u : View) (n : Z) (p : Page),
             source u = source v -> (0 <= n < m)%Z ->
             get_page (source v) n = Ok p ->
             source (view_of (show_checked_page u (fresh_interaction Embed) n))
             = source v
             /\ current_page
                  (view_of (show_checked_page u (fresh_interaction Embed) n))
                = n).
  { intros u n p Hu Hn Hp. rewrite show_checked_page_view, Hu, Hm.
    replace ((m >? n) && (n >=? 0))%Z with true.
    - split.
      + destruct (show_page_view_facts u (fresh_interaction Embed) n)
          as (Hs & _). now rewrite Hs.
      + apply show_page_current_page with (p := p). now rewrite Hu.
    - symmetry. apply andb_true_iff. rewrite Z.gtb_ltb, Z.geb_leb.
      split; [apply Z.ltb_lt | apply Z.leb_le]; lia. }
  split; intros ->; unfold after_presses; cbn [fold_left after_press];
    unfold go_to_next_page, go_to_previous_page.
  - destruct (Hstep v (current_page v + 1)%Z p1 eq_refl Hthere Hp1)
      as [Hs1 Hc1].
    rewrite Hc1.
    replace (current_page v + 1 - 1)%Z with (current_page v) by lia.
    now apply (Hstep _ (current_page v) p0 Hs1 Hcur Hp0).
  - destruct (Hstep v (current_page v - 1)%Z p1 eq_refl Hthere Hp1)
      as [Hs1 Hc1].
    rewrite Hc1.
    replace (current_page v - 1 + 1)%Z with (current_page v) by lia.
    now apply (Hstep _ (current_page v) p0 Hs1 Hcur Hp0).
Qed.

End ButtonFacts.

Section JumpFacts.

Import Paginator PaginatorItems.

Variables Page Embed : Type.
Variable db : UnicodeDB.

Local Abbreviation View := (RoboPages Page Embed).
Local Abbreviation Inter := (Interaction Embed).

(** X16. Typing the number of a page, as [str] writes it, into the modal of
    an active view takes the view to that page: the number [n] of a page
    between 1 and the page count leads to index [n - 1], when the source
    supplies the page. *)
Theorem jump_by_page_number (v : View) (i : Inter) (n m : Z) (p : Page) :
  message v = true ->
  is_finished v = false ->
  get_max_pages (source v) = Some m ->
  (1 <= n <= m)%Z ->
  get_page (source v) (n - 1) = Ok p ->
  current_page (jump_view (numbered_page db v i (Submitted (str_of_int n))))
  = (n - 1)%Z.
Proof.
  intros Hmsg Hfin Hm Hn Hp.
  destruct (@str_of_int_round_trip db n) as [Hdig Hint]; [lia|].
  rewrite (@numbered_page_view Page Embed db v i (str_of_int n) n
             Hmsg Hfin Hdig Hint).
  rewrite show_checked_page_view, Hm.
  replace ((m >? n - 1) && (n - 1 >=? 0))%Z with true.
  - now apply show_page_current_page with (p := p).
  - symmetry. apply andb_true_iff. rewrite Z.gtb_ltb, Z.geb_leb.
    split; [apply Z.ltb_lt | apply Z.leb_le]; lia.
Qed.

(** X17. What the modal's interaction receives after a jump within the
    pages: when the page renders to something, one edit of the message and
    no error text; when it renders to nothing (an empty dict, or a value
    that is neither dict, str nor embed), the index has moved and the user
    is still told "Expected a number between 1 and m". *)
Theorem jump_reply (v : View) (i : Inter) (value : pystr) (n m : Z)
    (p : Page) (kwargs : Kwargs Embed) :
  message v = true ->
  is_finished v = false ->
  get_max_pages (source v) = Some m ->
  isdigit db value = true ->
  int_of_digits db value = Ok n ->
  (1 <= n <= m)%Z ->
  get_page (source v) (n - 1) = Ok p ->
  _get_kwargs_from_page (set_current_page v (n - 1)) p = Ok kwargs ->
  numbered_page db v i (Submitted value)
  = {| jump_view := _update_labels (set_current_page v (n - 1)) (n - 1);
       jump_interaction :=
         respond i (SendModal Embed (NumberedPageModal_init (Some m)));
       jump_modal_interaction :=
         Some (respond (fresh_interaction Embed)
                 match kwargs with
                 | [] => SendMessage Embed (Plain (expected_between m)) true
                 | _ => EditMessage kwargs
                 end);
       jump_raised := None |}.
Proof.
  intros Hmsg Hfin Hm Hdig Hint Hn Hp Hkw. unfold numbered_page.
  rewrite Hmsg, Hfin, Hdig, Hint. cbn [negb].
  unfold show_checked_page. rewrite Hm.
  replace ((m >? n - 1) && (n - 1 >=? 0))%Z with true
    by (symmetry; apply andb_true_iff; rewrite Z.gtb_ltb, Z.geb_leb;
        split; [apply Z.ltb_lt | apply Z.leb_le]; lia).
  unfold show_page. rewrite Hp, Hkw.
  destruct kwargs as [|x kwargs].
  - cbn [fresh_interaction is_done negb]. now rewrite placeholder_replaced.
  - reflexivity.
Qed.

End JumpFacts.

(* ===================================================================== *)
(** ** The Reddit converter: the path pattern                            *)
(* ===================================================================== *)

Section RedditPath.

Import Converters Reddit.

Lemma re_class_recognises (p : char -> bool) :
  recognises (re_class p) (fun pre => exists c, pre = [c] /\ p c = true).
Proof.
  intros [|c s] g k m; cbn; [discriminate|].
  destruct (p c) eqn:E; [|discriminate].
  intros H. exists [c], s. repeat split; [now exists c | exact H].
Qed.

Lemma re_empty_recognises : recognises re_empty (fun pre => pre = []).
Proof. intros s g k m H. now exists [], s. Qed.

Lemma re_seq_recognises (r1 r2 : Regex) (L1 L2 : pystr -> Prop) :
  recognises r1 L1 -> recognises r2 L2 ->
  recognises (re_seq r1 r2)
    (fun pre => exists a b, pre = a ++ b /\ L1 a /\ L2 b).
Proof.
  intros H1 H2 s g k m H. unfold re_seq in H.
  apply H1 in H. destruct H as (a & s1 & -> & La & H).
  apply H2 in H. destruct H as (b & s2 & -> & Lb & H).
  exists (a ++ b), s2. rewrite app_assoc. repeat split; [|exact H].
  now exists a, b.
Qed.

Lemma recognises_weaken (r : Regex) (L L' : pystr -> Prop) :
  (forall pre, L pre -> L' pre) -> recognises r L -> recognises r L'.
Proof.
  intros HL Hr s g k m H. apply Hr in H.
  destruct H as (pre & s' & -> & Lpre & H). exists pre, s'. auto.
Qed.

Lemma re_lit_recognises (l : string) :
  recognises (re_lit l) (fun pre => pre = lit l).
Proof.
  unfold re_lit. induction (lit l) as [|c cs IH]; cbn [fold_right].
  - apply re_empty_recognises.
  - eapply recognises_weaken;
      [|apply re_seq_recognises; [apply re_class_recognises | exact IH]].
    intros pre (a & b & -> & (x & -> & Hx) & ->).
    apply N.eqb_eq in Hx. now subst.
Qed.

Lemma re_opt_recognises (r : Regex) (L : pystr -> Prop) :
  recognises r L -> recognises (re_opt r) (fun pre => L pre \/ pre = []).
Proof.
  intros Hr s g k m. unfold re_opt.
  destruct (r s g k) as [m'|] eqn:E.
  - intros [= <-]. apply Hr in E. destruct E as (pre & s' & -> & Lpre & H).
    exists pre, s'. auto.
  - intros H. exists [], s. auto.
Qed.

Lemma re_class_star_recognises (p : char -> bool) :
  recognises (re_star (re_class p)) (fun pre => forallb p pre = true).
Proof.
  intros s g k m. unfold re_star. generalize (length s) at 1.
  intros fuel. revert s. induction fuel as [|fuel IH]; intros s;
    cbn [re_star_fuel].
  - intros H. now exists [], s.
  - match goal with
    | |- match ?x with _ => _ end = _ -> _ => destruct x as [m'|] eqn:E
    end.
    + intros [= <-]. apply re_class_recognises in E.
      destruct E as (pre & s1 & -> & (c & -> & Hc) & E).
      destruct (length s1 <? length ([c] ++ s1))%nat; [|discriminate].
      apply IH in E. destruct E as (pre & s2 & -> & Hpre & E).
      exists (c :: pre), s2. cbn [app forallb]. rewrite Hc, Hpre.
      now repeat split.
    + intros H. now exists [], s.
Qed.

Lemma re_class_plus_recognises (p : char -> bool) :
  recognises (re_plus (re_class p))
    (fun pre => pre <> [] /\ forallb p pre = true).
Proof.
  eapply recognises_weaken;
    [|apply re_seq_recognises;
      [apply re_class_recognises | apply re_class_star_recognises]].
  intros pre (a & b & -> & (c & -> & Hc) & Hb).
  cbn [app forallb]. rewrite Hc, Hb. split; [discriminate | reflexivity].
Qed.

(** The greedy run of a class takes every character of the class in
    front of a text that does not go on with one, when what follows is
    accepted. *)
Lemma class_run (p : char -> bool) (ls tail : pystr) (g : Groups)
    (k : Cont) (m : Match) :
  forallb p ls = true ->
  match tail with [] => True | c :: _ => p c = false end ->
  k tail g = Some m ->
  forall fuel, (length ls <= fuel)%nat ->
    re_star_fuel fuel (re_class p) (ls ++ tail) g k = Some m.
Proof.
  intros Hls Htail Hk. induction ls as [|l ls IH]; intros fuel Hfuel.
  - cbn [app]. destruct fuel as [|fuel]; cbn [re_star_fuel]; [exact Hk|].
    destruct tail as [|c tail]; [exact Hk|].
    unfold re_class at 1. rewrite Htail. exact Hk.
  - cbn [forallb] in Hls. apply andb_true_iff in Hls. destruct Hls as [Hl Hls].
    destruct fuel as [|fuel]; [cbn in Hfuel; lia|].
    cbn [app re_star_fuel]. unfold re_class at 1. rewrite Hl.
    replace (length (ls ++ tail) <? length (l :: ls ++ tail))%nat with true
      by (symmetry; apply Nat.ltb_lt; cbn [length]; lia).
    rewrite IH; [reflexivity | exact Hls | cbn [length] in Hfuel; lia].
Qed.

Lemma re_lit_matches (l : string) (s : pystr) (g : Groups) (k : Cont) :
  re_lit l (lit l ++ s) g k = k s g.
Proof.
  unfold re_lit. induction (lit l) as [|c cs IH]; cbn [fold_right app].
  - reflexivity.
  - unfold re_seq at 1, re_char, re_class. now rewrite N.eqb_refl.
Qed.

(** X18. The path pattern is a test of how the path begins: [match] accepts
    a path exactly when it starts with [/r/], a subreddit name, [/comments/]
    and at least one letter or digit; whatever follows is accepted. *)
Theorem VALID_PATH_tests_a_prefix (p : pystr) :
  re_match VALID_PATH p <> None
  <-> exists sub c rest,
        p = lit "/r/" ++ sub ++ lit "/comments/" ++ c :: rest
        /\ sub <> []
        /\ forallb is_subreddit_char sub = true
        /\ is_alnum_char c = true.
Proof.
  split.
  - destruct (re_match VALID_PATH p) as [m|] eqn:E; [intros _ | congruence].
    unfold re_match, VALID_PATH in E.
    assert (H : recognises
                  (re_seq (re_lit "/r/")
                     (re_seq (re_plus (re_class is_subreddit_char))
                        (re_seq (re_lit "/comments/")
                           (re_plus (re_class is_alnum_char)))))
                  (fun pre =>
                     exists sub ids,
                       pre = lit "/r/" ++ sub ++ lit "/comments/" ++ ids
                       /\ (sub <> [] /\ forallb is_subreddit_char sub = true)
                       /\ (ids <> [] /\ forallb is_alnum_char ids = true))).
    { eapply recognises_weaken;
        [|apply re_seq_recognises;
          [apply re_lit_recognises
          |apply re_seq_recognises;
            [apply re_class_plus_recognises
            |apply re_seq_recognises;
              [apply re_lit_recognises | apply re_class_plus_recognises]]]].
      intros pre (a & b & -> & -> & (sub & c & -> & Hsub & (d & ids & -> & -> & Hids))).
      now exists sub, ids. }
    unfold re_seq at 1 2 3 4 in E.
    unfold re_seq at 1 2 3 in H.
    apply H in E.
    destruct E as (pre & s' & -> & (sub & ids & -> & [Hs1 Hs2] & [Hi1 Hi2]) & _).
    destruct ids as [|c ids]; [congruence|].
    cbn [forallb] in Hi2. apply andb_true_iff in Hi2. destruct Hi2 as [Hc _].
    exists sub, c, (ids ++ s').
    repeat split; try assumption.
    change (c :: ids ++ s') with ((c :: ids) ++ s').
    now rewrite <- !app_assoc.
  - intros (sub & c & rest & -> & Hsub & Hall & Hc).
    destruct sub as [|x sub]; [congruence|].
    cbn [forallb] in Hall. apply andb_true_iff in Hall.
    destruct Hall as [Hx Hall].
    unfold re_match, VALID_PATH. unfold re_seq at 1.
    rewrite re_lit_matches. unfold re_seq at 1, re_plus at 1, re_seq at 1.
    cbn [app]. unfold re_class at 1. rewrite Hx. unfold re_star.
    set (K := fun (s' : pystr) (g' : Groups) =>
                re_seq (re_lit "/comments/")
                  (re_seq (re_plus (re_class is_alnum_char))
                     (re_opt
                        (re_seq (re_char 47%N)
                           (re_plus
                              (re_class (fun c0 => negb (c0 =? 10)%N))))))
                  s' g' (fun s'0 g0 => Some (s'0, g0))).
    destruct (K (lit "/comments/" ++ c :: rest) []) as [m|] eqn:EK.
    + rewrite (@class_run is_subreddit_char sub
                 (lit "/comments/" ++ c :: rest) [] K m);
        [discriminate | exact Hall | reflexivity | exact EK | ].
      rewrite length_app. lia.
    + exfalso. revert EK. unfold K, re_seq at 1.
      rewrite re_lit_matches. unfold re_seq at 1, re_plus at 1, re_seq at 1.
      unfold re_class at 1. rewrite Hc.
      apply re_star_always. intros s' g'. apply re_opt_always.
      intros s'' g''. discriminate.
Qed.

End RedditPath.

(* ===================================================================== *)
(** ** The Reddit converter: from the listing to the video               *)
(* ===================================================================== *)

Section RedditVideo.

Import Converters Reddit.

Variable web : Web.

(** What [convert] does with the video record it has chosen. *)
Lemma convert_at_submission (argument : pystr) (submission : JSON) :
  reaches_submission web argument submission ->
  convert web argument
  = match
      match own_video submission with
      | Found media => Ok media
      | NoIndex => Raise IndexError
      | _ =>
          match crosspost_video submission with
          | Found media => Ok media
          | _ => Raise (BadArgument (lit "Could not fetch media information."))
          end
      end
    with
    | Raise e => Raise e
    | Ok media =>
        match getitem_key media "fallback_url" with
        | Found x =>
            match yarl_URL_of web x with
            | Ok fallback_url => RedditMediaURL_init fallback_url
            | Raise e => Raise e
            end
        | NoKey => Raise (BadArgument (lit "Could not fetch fall back URL."))
        | NotSubscriptable => Raise TypeError
        | NoIndex => Raise IndexError
        end
    end.
Proof.
  intros (u & h & data & Hu & Hh & Hend & Hpath & Hstatus & Hjson & Hsub).
  unfold convert. rewrite Hu. cbv zeta. fold (resolved web u). rewrite Hh, Hend.
  destruct (re_match VALID_PATH (path (resolved web u))); [|congruence].
  cbn [andb negb]. fold (listing_response web u). rewrite Hstatus, Hjson.
  cbn [Z.eqb Pos.eqb negb]. fold (submission_of data). rewrite Hsub.
  reflexivity.
Qed.

Lemma own_video_never_no_index (submission : JSON) :
  own_video submission <> NoIndex.
Proof.
  unfold own_video, then_key, getitem_key.
  destruct submission as [| | | | |d]; try discriminate.
  induction d as [|[k v] d IH]; cbn [items_get]; [discriminate|].
  destruct (str_eqb k (lit "media")); [|exact IH].
  destruct v as [| | | | |d']; try discriminate.
  induction d' as [|[k' v'] d' IH']; cbn [items_get]; [discriminate|].
  destruct (str_eqb k' (lit "reddit_video")); [discriminate | exact IH'].
Qed.

(** X19. The submission's own video is used whenever it has one; the first
    cross-posted submission's video is used only when it has none. With a
    fallback address that [yarl] accepts, the converter returns that address
    and names the file after the second part of its path. *)
Theorem video_is_found (argument : pystr) (submission media : JSON)
    (address : pystr) (fallback : URL) (root part : pystr)
    (more : list pystr) :
  reaches_submission web argument submission ->
  own_video submission = Found media
  \/ ((forall x, own_video submission <> Found x)
      /\ crosspost_video submission = Found media) ->
  getitem_key media "fallback_url" = Found (JStr address) ->
  yarl_URL web address = Ok fallback ->
  parts fallback = root :: part :: more ->
  convert web argument
  = Ok {| url := fallback; filename := part ++ lit ".mp4" |}.
Proof.
  intros Hreach Hmedia Hkey Hurl Hparts.
  rewrite (convert_at_submission Hreach).
  assert (Hchosen :
            match own_video submission with
            | Found media0 => Ok media0
            | NoIndex => Raise IndexError
            | _ =>
                match crosspost_video submission with
                | Found media0 => Ok media0
                | _ => Raise (BadArgument
                                (lit "Could not fetch media information."))
                end
            end = Ok media).
  { destruct Hmedia as [Hown | [Hown Hcross]].
    - now rewrite Hown.
    - pose proof (own_video_never_no_index submission) as Hno.
      destruct (own_video submission) as [x| | |];
        [now elim (Hown x) | | | congruence]; now rewrite Hcross. }
  rewrite Hchosen, Hkey. cbn [yarl_URL_of]. rewrite Hurl.
  unfold RedditMediaURL_init. now rewrite Hparts.
Qed.

(** X20. A submission without a video of its own and without a cross-posted
    one (a text post, say) is answered with "Could not fetch media
    information.". *)
Theorem no_video_is_reported (argument : pystr) (submission : JSON) :
  reaches_submission web argument submission ->
  (forall x, own_video submission <> Found x) ->
  (forall x, crosspost_video submission <> Found x) ->
  convert web argument
  = Raise (BadArgument (lit "Could not fetch media information.")).
Proof.
  intros Hreach Hown Hcross. rewrite (convert_at_submission Hreach).
  pose proof (own_video_never_no_index submission) as Hno.
  destruct (own_video submission) as [x| | |];
    [now elim (Hown x) | | | congruence];
    (destruct (crosspost_video submission) as [y| | |];
     [now elim (Hcross y) | reflexivity ..]).
Qed.

(** X21. A video record that is there but is not an object (a null, say) is
    not reported as a bad argument: the [TypeError] of its subscript leaves
    the converter, and the cross-post is not tried. *)
Theorem broken_video_record_raises_TypeError (argument : pystr)
    (submission media : JSON) :
  reaches_submission web argument submission ->
  own_video submission = Found media ->
  (forall d, media <> JDict d) ->
  convert web argument = Raise TypeError.
Proof.
  intros Hreach Hown Hnot. rewrite (convert_at_submission Hreach), Hown.
  destruct media as [| | | | |d]; try reflexivity. now elim (Hnot d).
Qed.

(** X22. Only subdomains of reddit.com pass the host check: a resolved host
    that does not end with ".reddit.com", the bare "reddit.com" included, is
    answered with "Not a reddit URL.", whatever the path. *)
Theorem only_subdomains_pass (argument : pystr) (u : URL) (h : pystr) :
  yarl_URL web argument = Ok u ->
  host (resolved web u) = Some h ->
  h = lit "reddit.com" \/ endswith h (lit ".reddit.com") = false ->
  convert web argument = Raise (BadArgument (lit "Not a reddit URL.")).
Proof.
  intros Hu Hh Hend.
  assert (Hfalse : endswith h (lit ".reddit.com") = false)
    by (destruct Hend as [-> | H]; [reflexivity | exact H]).
  unfold convert. rewrite Hu. cbv zeta. fold (resolved web u).
  now rewrite Hh, Hfalse.
Qed.

End RedditVideo.

(* ===================================================================== *)
(** ** [MemeDict]                                                        *)
(* ===================================================================== *)

Section MemeDictFacts.

Import Meme.

Variables Key Elt Value : Type.
Variable contains : Elt -> Key -> bool.
Variable key_eqb : Key -> Key -> bool.
Hypothesis key_eqb_spec : forall a b, key_eqb a b = true <-> a = b.

Lemma dict_getitem_skip (d1 d2 : Dict Key Value) (key : Key) (v : Value) :
  ~ In key (map fst d1) ->
  dict_getitem key_eqb (d1 ++ (key, v) :: d2) key = Some v.
Proof.
  induction d1 as [|[k x] d1 IH]; cbn [app dict_getitem map fst In].
  - intros _. now rewrite (proj2 (key_eqb_spec key key) eq_refl).
  - intros Hnot. destruct (key_eqb k key) eqn:E.
    + apply key_eqb_spec in E. tauto.
    + apply IH. tauto.
Qed.

(** X23. A lookup returns the value of the first key, in insertion order,
    that contains the element, and raises [KeyError] exactly when no key
    contains it. *)
Theorem MemeDict_finds_first_containing_key (d : Dict Key Value) (k : Elt) :
  NoDup (map fst d) ->
  (forall d1 key v d2,
      d = d1 ++ (key, v) :: d2 ->
      contains k key = true ->
      (forall key', In key' (map fst d1) -> contains k key' = false) ->
      MemeDict_getitem contains key_eqb d k = Some v)
  /\ (MemeDict_getitem contains key_eqb d k = None
      <-> forall key, In key (map fst d) -> contains k key = false).
Proof.
  intros Hnodup.
  assert (Hfirst : forall d1 key v d2,
             d = d1 ++ (key, v) :: d2 ->
             contains k key = true ->
             (forall key', In key' (map fst d1) -> contains k key' = false) ->
             MemeDict_getitem contains key_eqb d k = Some v).
  { intros d1 key v d2 -> Hk Hnone. unfold MemeDict_getitem.
    assert (Hfind : find (contains k) (map fst (d1 ++ (key, v) :: d2))
                    = Some key).
    { rewrite map_app. cbn [map fst].
      induction (map fst d1) as [|a l IH]; cbn [app find].
      - now rewrite Hk.
      - rewrite (Hnone a (or_introl eq_refl)). apply IH.
        intros key' H. apply Hnone. now right. }
    rewrite Hfind. apply dict_getitem_skip.
    rewrite map_app in Hnodup. cbn [map fst] in Hnodup.
    apply NoDup_remove_2 in Hnodup. intros H. apply Hnodup.
    apply in_or_app. now left. }
  split; [exact Hfirst|]. split.
  - intros Hnone key Hin.
    destruct (contains k key) eqn:Hk; [|reflexivity]. exfalso.
    assert (Hex : exists key0, In key0 (map fst d) /\ contains k key0 = true)
      by (exists key; now split).
    clear key Hin Hk.
    assert (Hsplit : exists d1 key v d2,
               d = d1 ++ (key, v) :: d2 /\ contains k key = true
               /\ forall key', In key' (map fst d1) ->
                               contains k key' = false).
    { clear Hnodup Hfirst Hnone. induction d as [|[a x] d IH].
      - destruct Hex as (key0 & [] & _).
      - destruct (contains k a) eqn:Ha.
        + exists [], a, x, d. repeat split; [exact Ha | intros ? []].
        + destruct IH as (d1 & key & v & d2 & -> & Hk & Hn).
          * destruct Hex as (key0 & [<- | Hin] & Hk0);
              [cbn in Hk0; congruence | now exists key0].
          * exists ((a, x) :: d1), key, v, d2. repeat split; [exact Hk|].
            intros key' [<- | Hin]; [exact Ha | now apply Hn]. }
    destruct Hsplit as (d1 & key & v & d2 & Hd & Hk & Hn).
    rewrite (Hfirst d1 key v d2 Hd Hk Hn) in Hnone. discriminate.
  - intros Hnone. unfold MemeDict_getitem.
    destruct (find (contains k) (map fst d)) as [key|] eqn:E; [|reflexivity].
    apply find_some in E. destruct E as [Hin Hk].
    rewrite (Hnone key Hin) in Hk. discriminate.
Qed.

End MemeDictFacts.

(* ===================================================================== *)
(** ** The further properties on sample inputs                           *)
(* ===================================================================== *)

Section MoreSplitterSamples.

Import Converters Samples MoreSamples.

Lemma parse_keeps_spans_and_counts_readings_witness :
  map parsed_span [(1700007200000000%Z, 0%Z, 10%Z)]
  = map candidate_span
      (filter usable (duckling sample_world (lit "UTC") (lit "in 2 hours")))
  /\ 1%nat
     = (0 + length (filter is_duration
                      (duckling sample_world (lit "UTC") (lit "in 2 hours"))))%nat.
Proof.
  exact (@parse_keeps_spans_and_counts_readings sample_world
           (lit "in 2 hours") (lit "UTC") 0%Z 0%nat 1%nat
           [(1700007200000000%Z, 0%Z, 10%Z)] eq_refl).
Defined.

Lemma nothing_usable_is_a_parse_failure_witness :
  WhenAndWhatConverter_convert interval_world sample_ctx
    (lit "at the weekend") 0
  = (Raise (BadArgument could_not_parse), 0%nat).
Proof.
  refine (proj1 (@nothing_usable_is_a_parse_failure interval_world 0%nat)
            sample_ctx (lit "at the weekend") eq_refl _).
  repeat constructor.
Defined.

Lemma malformed_candidate_fails_conversion_witness :
  WhenAndWhatConverter_convert malformed_world sample_ctx
    (lit "in 2 hours soon") 0
  = (Raise ValueError, 1%nat).
Proof.
  exact (@malformed_candidate_fails_conversion malformed_world sample_ctx
           (lit "in 2 hours soon") 0%nat 1%nat [two_hours 0 10] []
           {| dim := time; start := 11; end_ := 15;
              value_value := Some (lit "soon"); normalized_value := 0 |}
           (lit "soon") [(1700007200000000%Z, 0%Z, 10%Z)]
           eq_refl eq_refl eq_refl eq_refl eq_refl eq_refl).
Defined.

Lemma whole_string_agrees_with_splitter_witness :
  DatetimeConverter_convert sample_world sample_ctx
    (strip_common_stuff (lit "me to buy milk in 2 hours")) 0
  = (Ok 1700007200000000%Z, 1%nat).
Proof.
  exact (@whole_string_agrees_with_splitter sample_world sample_ctx
           (lit "me to buy milk in 2 hours") 0%nat 1%nat
           1700007200000000%Z (lit "buy milk") eq_refl).
Defined.

Lemma suffix_span_residual_witness :
  WhenAndWhatConverter_convert sample_world sample_ctx
    (lit "me to buy milk in 2 hours") 0
  = (Ok (1700007200000000%Z, lit "buy milk"), 1%nat).
Proof.
  refine (@suffix_span_residual sample_world sample_ctx
            (lit "me to buy milk in 2 hours") 0%nat 1%nat
            1700007200000000%Z 9%Z 19%Z [] eq_refl eq_refl _ eq_refl).
  discriminate.
Defined.

Lemma label_is_part_of_the_input_witness :
  lit "buy milk" = ellipsis
  \/ part_of (lit "buy milk") (lit "in 2 hours to buy milk").
Proof.
  exact (@label_is_part_of_the_input sample_world sample_ctx
           (lit "in 2 hours to buy milk") 0%nat 1%nat
           1700007200000000%Z (lit "buy milk") eq_refl).
Defined.

End MoreSplitterSamples.

Section MorePasteSamples.

Import Converters PageSamples.

Lemma nothing_at_the_start_gives_empty_id_witness :
  MystbinPasteConverter_convert ascii_db
    (lit "see https://mystb.in/FooBarBaz.py")
  = Ok (Some []).
Proof.
  refine (@nothing_at_the_start_gives_empty_id ascii_db
            (lit "see https://mystb.in/FooBarBaz.py") _).
  cbn. repeat split; discriminate.
Defined.

Lemma reference_at_the_start_yields_id_witness :
  MystbinPasteConverter_convert ascii_db
    (lit "https://mystb.in/FooBarBaz.py and more")
  = Ok (Some (lit "FooBarBaz")).
Proof.
  refine (@reference_at_the_start_yields_id ascii_db
            (lit "https://mystb.in/") (lit ".py and more")
            [lit "Foo"; lit "Bar"; lit "Baz"] _ _ _).
  - cbn. tauto.
  - repeat constructor.
  - cbn. split; reflexivity.
Defined.

End MorePasteSamples.

Section MoreViewSamples.

Import Paginator PaginatorItems PageSamples MorePageSamples.

Lemma current_page_stays_in_range_witness :
  source
    (after_presses ascii_db (started ten_pages)
       [press_next; press_jump (Submitted (lit "77")); press_last;
        press_next; press_first; press_previous])
  = source (started ten_pages)
  /\ (0 <= current_page
             (after_presses ascii_db (started ten_pages)
                [press_next; press_jump (Submitted (lit "77")); press_last;
                 press_next; press_first; press_previous]) < 10)%Z.
Proof.
  refine (@current_page_stays_in_range pystr unit ascii_db
            (started ten_pages) 10%Z _ eq_refl _).
  vm_compute. split; [discriminate | reflexivity].
Defined.

Lemma disabled_means_nowhere_to_go_witness :
  go_to_previous_page
    (view_of (show_page (started ten_pages) (fresh_interaction unit) 0))
    (fresh_interaction unit)
  = (view_of (show_page (started ten_pages) (fresh_interaction unit) 0),
     fresh_interaction unit, None).
Proof.
  refine (proj1 (@disabled_means_nowhere_to_go pystr unit
                   (started ten_pages)
                   (view_of (show_page (started ten_pages)
                               (fresh_interaction unit) 0))
                   (fresh_interaction unit)
                   (snd (fst (show_page (started ten_pages)
                                (fresh_interaction unit) 0)))
                   (fresh_interaction unit) 0%Z 10%Z eq_refl eq_refl _)
            eq_refl).
  vm_compute. split; [discriminate | reflexivity].
Defined.

Lemma unknown_count_leaves_buttons_enabled_witness :
  go_to_previous_page_button
    (view_of (show_page (started endless_source) (fresh_interaction unit) 0))
  = {| label := lit "0"; disabled := false |}.
Proof.
  exact (proj1 (@unknown_count_leaves_buttons_enabled pystr unit
                  (started endless_source)
                  (view_of (show_page (started endless_source)
                              (fresh_interaction unit) 0))
                  (fresh_interaction unit)
                  (snd (fst (show_page (started endless_source)
                               (fresh_interaction unit) 0)))
                  0%Z eq_refl eq_refl eq_refl)).
Defined.

Lemma failed_formatting_moves_the_index_witness :
  show_checked_page (started fragile_source) (fresh_interaction unit) 1
  = (set_current_page (started fragile_source) 1, fresh_interaction unit,
     None).
Proof.
  refine (@failed_formatting_moves_the_index pystr unit
            (started fragile_source) (fresh_interaction unit) 1%Z 3%Z
            (lit "b") IndexError eq_refl _ eq_refl eq_refl).
  vm_compute. split; [discriminate | reflexivity].
Defined.

Lemma last_page_button_is_guarded_witness :
  exists m,
    get_max_pages (source (started ten_pages)) = Some m
    /\ (0 <= m - 1 < m)%Z
    /\ go_to_last_page (started ten_pages) (fresh_interaction unit)
       = show_page (started ten_pages) (fresh_interaction unit) (m - 1).
Proof.
  refine (proj2 (@last_page_button_is_guarded pystr unit
                   (started ten_pages) (fresh_interaction unit)) _).
  cbn. tauto.
Defined.

Lemma next_and_previous_cancel_witness :
  current_page
    (after_presses ascii_db (started ten_pages) [press_next; press_previous])
  = current_page (started ten_pages).
Proof.
  refine (proj1 (@next_and_previous_cancel pystr unit ascii_db
                   (started ten_pages) 10%Z (lit "a") (lit "b") 1%Z
                   eq_refl _ _ eq_refl eq_refl) eq_refl);
    vm_compute; split; (discriminate || reflexivity).
Defined.

Lemma jump_by_page_number_witness :
  current_page
    (jump_view (numbered_page ascii_db (started ten_pages)
                  (fresh_interaction unit) (Submitted (str_of_int 7))))
  = (7 - 1)%Z.
Proof.
  refine (@jump_by_page_number pystr unit ascii_db (started ten_pages)
            (fresh_interaction unit) 7%Z 10%Z (lit "g")
            eq_refl eq_refl eq_refl _ eq_refl).
  vm_compute. split; discriminate.
Defined.

Lemma jump_reply_witness :
  jump_modal_interaction
    (numbered_page ascii_db (started ten_pages) (fresh_interaction unit)
       (Submitted (lit "7")))
  = Some (respond (fresh_interaction unit)
            (EditMessage [(lit "content", KwStr unit (lit "g"));
                          (lit "embed", KwNone unit)])).
Proof.
  assert (Hn : (1 <= 7 <= 10)%Z) by (split; discriminate).
  rewrite (@jump_reply pystr unit ascii_db (started ten_pages)
             (fresh_interaction unit) (lit "7") 7%Z 10%Z (lit "g")
             [(lit "content", KwStr unit (lit "g"));
              (lit "embed", KwNone unit)]
             eq_refl eq_refl eq_refl eq_refl eq_refl Hn eq_refl eq_refl).
  reflexivity.
Defined.

End MoreViewSamples.

Section MoreRedditSamples.

Import Converters Reddit RedditSamples MorePageSamples.

Lemma sample_reaches_submission (submission : JSON) :
  reaches_submission (web_with submission)
    (lit "https://www.reddit.com/r/aww/comments/abc123/a_cat") submission.
Proof.
  exists submission_url, (lit "www.reddit.com"), (listing_of submission).
  repeat split. vm_compute. discriminate.
Qed.

Lemma video_is_found_witness :
  convert (web_with cross_post)
    (lit "https://www.reddit.com/r/aww/comments/abc123/a_cat")
  = Ok {| url := video_url; filename := lit "xyz789.mp4" |}.
Proof.
  refine (@video_is_found (web_with cross_post)
            (lit "https://www.reddit.com/r/aww/comments/abc123/a_cat")
            cross_post
            (video_record "https://v.redd.it/xyz789/DASH_720.mp4")
            (lit "https://v.redd.it/xyz789/DASH_720.mp4") video_url
            (lit "/") (lit "xyz789") [lit "DASH_720.mp4"]
            (sample_reaches_submission cross_post) _
            eq_refl eq_refl eq_refl).
  right. split; [|reflexivity].
  intros x H. vm_compute in H. discriminate H.
Defined.

Lemma no_video_is_reported_witness :
  convert (web_with text_post)
    (lit "https://www.reddit.com/r/aww/comments/abc123/a_cat")
  = Raise (BadArgument (lit "Could not fetch media information.")).
Proof.
  refine (@no_video_is_reported (web_with text_post)
            (lit "https://www.reddit.com/r/aww/comments/abc123/a_cat")
            text_post (sample_reaches_submission text_post) _ _);
    intros x H; vm_compute in H; discriminate H.
Defined.

Lemma broken_video_record_raises_TypeError_witness :
  convert (web_with broken_post)
    (lit "https://www.reddit.com/r/aww/comments/abc123/a_cat")
  = Raise TypeError.
Proof.
  refine (@broken_video_record_raises_TypeError (web_with broken_post)
            (lit "https://www.reddit.com/r/aww/comments/abc123/a_cat")
            broken_post JNull (sample_reaches_submission broken_post)
            eq_refl _).
  intros d H. discriminate H.
Defined.

Lemma only_subdomains_pass_witness :
  convert (web_with video_post)
    (lit "https://reddit.com/r/aww/comments/abc123")
  = Raise (BadArgument (lit "Not a reddit URL.")).
Proof.
  refine (@only_subdomains_pass (web_with video_post)
            (lit "https://reddit.com/r/aww/comments/abc123")
            {| host := Some (lit "reddit.com");
               path := lit "/r/aww/comments/abc123";
               parts := [lit "/"; lit "r"; lit "aww"; lit "comments";
                         lit "abc123"] |}
            (lit "reddit.com") eq_refl eq_refl _).
  now left.
Defined.

Lemma str_eqb_spec (a b : pystr) : str_eqb a b = true <-> a = b.
Proof.
  revert b. induction a as [|x a IH]; intros [|y b]; cbn [str_eqb];
    try (split; [discriminate | discriminate]); [tauto|].
  rewrite andb_true_iff, N.eqb_eq, IH. split.
  - now intros [-> ->].
  - now intros [= -> ->].
Qed.

Lemma MemeDict_finds_first_containing_key_witness :
  Meme.MemeDict_getitem mem_char str_eqb vowels_and_digits 49%N = Some 2%nat.
Proof.
  refine (proj1 (@MemeDict_finds_first_containing_key pystr char nat
                   mem_char str_eqb str_eqb_spec vowels_and_digits 49%N _)
            [(lit "aeiou", 1%nat)] (lit "0123456789") 2%nat
            [(lit "a1", 3%nat)] eq_refl eq_refl _).
  - repeat constructor; cbn; intuition discriminate.
  - intros key' [<- | []]. reflexivity.
Defined.

End MoreRedditSamples.

(* ===================================================================== *)
(** ** The length limit of the modal, and [start]                        *)
(* ===================================================================== *)

Section ModalLength.

Lemma lit_length_nb_digits (u : Decimal.uint) :
  length (lit (NilEmpty.string_of_uint u)) = Decimal.nb_digits u.
Proof.
  induction u; cbn [NilEmpty.string_of_uint Decimal.nb_digits];
    [reflexivity | ..];
    match goal with
    | |- length (lit (String ?a ?s)) = _ =>
        change (lit (String a s)) with (N_of_ascii a :: lit s)
    end; cbn [length]; now rewrite IHu.
Qed.

Lemma uint_value_bounds (u : Decimal.uint) :
  forall acc,
    (uint_value acc u = acc * 10 ^ Z.of_nat (Decimal.nb_digits u)
                        + uint_value 0 u
     /\ 0 <= uint_value 0 u < 10 ^ Z.of_nat (Decimal.nb_digits u))%Z.
Proof.
  induction u; intros acc; cbn [uint_value Decimal.nb_digits];
    [cbn; lia | ..];
    rewrite Nat2Z.inj_succ, Z.pow_succ_r by lia;
    match goal with
    | |- (uint_value ?a _ = _ /\ _ <= uint_value ?b _ < _)%Z =>
        destruct (IHu a) as [Ha _]; destruct (IHu b) as [Hb Hr];
        rewrite Ha; split; [|rewrite Hb]; nia
    end.
Qed.

Lemma nzhead_not_D0 (u x : Decimal.uint) : Decimal.nzhead u <> Decimal.D0 x.
Proof. induction u; cbn [Decimal.nzhead]; try discriminate; exact IHu. Qed.

(** The decimal text of a positive number has as many digits as the
    number needs: it lies between the powers of ten around it. *)
Lemma to_uint_bounds (p : positive) :
  (10 ^ (Z.of_nat (Decimal.nb_digits (Pos.to_uint p)) - 1) <= Z.pos p
   < 10 ^ Z.of_nat (Decimal.nb_digits (Pos.to_uint p)))%Z.
Proof.
  pose proof (DecimalPos.Unsigned.of_to p) as Hof.
  pose proof (uint_value_of_uint (Pos.to_uint p)) as Hval.
  rewrite Hof in Hval. cbn [Z.of_N] in Hval.
  assert (Hnorm : Decimal.unorm (Pos.to_uint p) = Pos.to_uint p).
  { pose proof (DecimalPos.Unsigned.to_of (Pos.to_uint p)) as H.
    rewrite Hof in H. cbn [N.to_uint] in H. now symmetry. }
  destruct (uint_value_bounds (Pos.to_uint p) 0) as [_ Hr].
  split; [|lia].
  destruct (Pos.to_uint p) as [|u|u|u|u|u|u|u|u|u|u] eqn:E.
  1: { cbn in *. lia. }
  1: { exfalso. unfold Decimal.unorm in Hnorm. cbn [Decimal.nzhead] in Hnorm.
       destruct (Decimal.nzhead u) eqn:En;
         try (rewrite <- En in Hnorm; now apply nzhead_not_D0 in Hnorm).
       injection Hnorm as <-. cbn in Hval. discriminate Hval. }
  all: cbn [uint_value Decimal.nb_digits] in *;
    match type of Hval with
    | _ = uint_value ?a ?d =>
        destruct (uint_value_bounds d a) as [Ha _];
        destruct (uint_value_bounds d 0) as [_ Hb];
        rewrite Nat2Z.inj_succ;
        replace (Z.succ (Z.of_nat (Decimal.nb_digits d)) - 1)%Z
          with (Z.of_nat (Decimal.nb_digits d)) by lia
    end; nia.
Qed.

Lemma str_of_int_length_mono (n m : Z) :
  (1 <= n <= m)%Z -> (len (str_of_int n) <= len (str_of_int m))%Z.
Proof.
  intros Hnm. unfold str_of_int, len.
  destruct n as [|p|p]; try lia. destruct m as [|q|q]; try lia.
  cbn [Z.to_int NilEmpty.string_of_int]. rewrite !lit_length_nb_digits.
  pose proof (to_uint_bounds p) as Hp. pose proof (to_uint_bounds q) as Hq.
  apply Nat2Z.inj_le.
  destruct (Nat.le_gt_cases (Decimal.nb_digits (Pos.to_uint p))
              (Decimal.nb_digits (Pos.to_uint q))) as [H | H]; [exact H|].
  exfalso.
  assert (Hpow : (10 ^ Z.of_nat (Decimal.nb_digits (Pos.to_uint q))
                  <= 10 ^ (Z.of_nat (Decimal.nb_digits (Pos.to_uint p)) - 1))%Z)
    by (apply Z.pow_le_mono_r; lia).
  lia.
Qed.

(** X24. The length limit the modal puts on its input never shuts out a page
    that exists: the number of every page from 1 to the page count, as [str]
    writes it, is within [min_length] and [max_length]. *)
Theorem page_numbers_fit_the_modal (n m limit : Z) :
  (1 <= n <= m)%Z ->
  Paginator.max_length (Paginator.NumberedPageModal_init (Some m))
  = Some limit ->
  (Paginator.min_length (Paginator.NumberedPageModal_init (Some m))
   <= len (str_of_int n) <= limit)%Z.
Proof.
  intros Hnm. cbn [Paginator.NumberedPageModal_init Paginator.max_length
                   Paginator.min_length].
  intros [= <-]. split; [|now apply str_of_int_length_mono].
  unfold str_of_int, len. destruct n as [|p|p]; try lia.
  cbn [Z.to_int NilEmpty.string_of_int]. rewrite lit_length_nb_digits.
  pose proof (DecimalPos.Unsigned.to_uint_nonnil p) as Hnil.
  destruct (Pos.to_uint p); [congruence | cbn [Decimal.nb_digits]; lia ..].
Qed.

End ModalLength.

Section StartFacts.

Import Paginator PaginatorStart.

Variables Page Embed : Type.

(** X25. The [content] given to [start] is dropped whenever the first page
    is formatted to a string or to an embed: both leave a "content" entry in
    the keyword arguments, so [setdefault] adds nothing and the message is
    sent with the page alone. *)
Theorem start_drops_content (v : RoboPages Page Embed) (page : Page)
    (embed_links ephemeral : bool) (content : option pystr) :
  get_page (source v) 0 = Ok page ->
  embed_links = true ->
  (forall s,
      format_page (source v) (current_page v) page = Ok (FStr Embed s) ->
      forall check_embeds,
        started_sent (start v check_embeds embed_links content ephemeral)
        = Some (SentPage [(lit "content", KwStr Embed s);
                          (lit "embed", KwNone Embed)] ephemeral))
  /\ (forall e,
         format_page (source v) (current_page v) page = Ok (FEmbed e) ->
         forall check_embeds,
           started_sent (start v check_embeds embed_links content ephemeral)
           = Some (SentPage [(lit "embed", KwEmbed e);
                             (lit "content", KwNone Embed)] ephemeral)).
Proof.
  intros Hpage ->. split; intros x Hformat check_embeds;
    unfold start, _get_kwargs_from_page;
    rewrite andb_false_r, Hpage, Hformat;
    destruct content as [[|c s]|]; reflexivity.
Qed.

End StartFacts.

Section StartSamples.

Import Paginator PaginatorStart PageSamples.

Lemma page_numbers_fit_the_modal_witness :
  (1 <= len (str_of_int 10) <= 2)%Z.
Proof.
  refine (@page_numbers_fit_the_modal 10%Z 10%Z 2%Z _ eq_refl).
  split; discriminate.
Defined.

Lemma start_drops_content_witness :
  started_sent
    (start (RoboPages_init ten_pages false) true true
       (Some (lit "Here are your results")) false)
  = Some (SentPage [(lit "content", KwStr unit (lit "a"));
                         (lit "embed", KwNone unit)] false).
Proof.
  exact (proj1 (@start_drops_content pystr unit
                  (RoboPages_init ten_pages false) (lit "a") true false
                  (Some (lit "Here are your results")) eq_refl eq_refl)
           (lit "a") eq_refl true).
Defined.

End StartSamples.
